(** * Digital stopwatch and countdown timer: time formatting and the two
      state machines, embedded from [utility.js] and the application script.

    Numbers.  Every duration and instant handled by the program is a whole
    number of milliseconds ([Date.now()], sums, differences and products of
    such values), far below 2^53, where JavaScript's doubles are exact.  They
    are embedded as [Z], and the embedding is the program's arithmetic on
    that range only: beyond it the doubles round (from about 2^56 ms the
    seconds computed by [formatTime] differ) and [String] switches to
    exponent notation (from 1e21).  Statements about the digits produced
    by [formatTime] therefore carry the bound [ms < 2^53].

    [Math.floor (a / b)] with a positive integer [b] is floor division,
    [Z.div]; the JavaScript remainder [%] truncates toward zero and is
    [Z.rem]; [Math.max] and [Math.min] are [Z.max] and [Z.min]. *)

From Stdlib Require Import ZArith Lia Bool Ascii String.
From stdpp Require Import base list.

Local Open Scope Z_scope.

(** * The JavaScript built-ins used by the program *)
Module JS.

(** The character of a decimal digit [0..9]. *)
Definition digitChar (d : Z) : ascii := ascii_of_nat (48 + Z.to_nat d).

(** Decimal digits of a non-negative integer, most significant first.
    [fuel] bounds the number of digits after the first. *)
Fixpoint digits (fuel : nat) (n : Z) : string :=
  match fuel with
  | O => String (digitChar (n mod 10)) EmptyString
  | S fuel' =>
      if n <? 10 then String (digitChar n) EmptyString
      else (digits fuel' (n / 10) ++ String (digitChar (n mod 10)) EmptyString)%string
  end.

(** [String(n)] for an integer [n] of magnitude below 1e21 (where
    JavaScript prints every digit): its decimal numeral, with a leading
    minus sign when negative.  A number below [2^(k+1)] has at most [k+1]
    decimal digits, so [Z.log2 n] is enough fuel ([toString_value]). *)
Definition toString (n : Z) : string :=
  if n <? 0 then String "-"%char (digits (Z.to_nat (Z.log2 (- n))) (- n))
  else digits (Z.to_nat (Z.log2 n)) n.

(** [c.repeat(k)] for a one-character string. *)
Fixpoint repeat (c : ascii) (k : nat) : string :=
  match k with
  | O => EmptyString
  | S k' => String c (repeat c k')
  end.

(** [s.padStart(target, c)] with a one-character pad string: [s] itself
    when it already has [target] characters or more (never truncated),
    otherwise [s] with [target - length s] copies of [c] in front. *)
Definition padStart (s : string) (target : nat) (c : ascii) : string :=
  if (target <=? String.length s)%nat then s
  else (repeat c (target - String.length s) ++ s)%string.

(** Reading a decimal numeral back (used to state that [toString] is the
    decimal representation). *)
Definition digitValue (c : ascii) : Z := Z.of_nat (nat_of_ascii c) - 48.

Fixpoint valueFrom (acc : Z) (s : string) : Z :=
  match s with
  | EmptyString => acc
  | String c s' => valueFrom (10 * acc + digitValue c) s'
  end.

Definition decimalValue (s : string) : Z := valueFrom 0 s.

End JS.

(** * [formatTime] (utility.js; repeated verbatim in the application script) *)

Record TimeParts := mkTimeParts {
  hours : string;
  minutes : string;
  seconds : string;
  milliseconds : string
}.

(** The four numeric components computed by [formatTime] before rendering. *)
Definition totalMs_of (ms : Z) : Z := Z.max 0 ms.
Definition totalSeconds_of (ms : Z) : Z := totalMs_of ms / 1000.
Definition hours_of (ms : Z) : Z := totalSeconds_of ms / 3600.
Definition minutes_of (ms : Z) : Z := Z.rem (totalSeconds_of ms) 3600 / 60.
Definition seconds_of (ms : Z) : Z := Z.rem (totalSeconds_of ms) 60.
Definition milliseconds_of (ms : Z) : Z := Z.rem (totalMs_of ms) 1000 / 10.

(** [formatTime(ms, includeMs = true)]; the second parameter is accepted and
    never read.  Exact for whole [ms] below 2^53, where the quotient by 1000
    computed in doubles has the same floor as the exact one. *)
Definition formatTime (ms : Z) (includeMs : bool) : TimeParts :=
  let totalMs := Z.max 0 ms in
  let totalSeconds := totalMs / 1000 in
  let hours := totalSeconds / 3600 in
  let minutes := Z.rem totalSeconds 3600 / 60 in
  let seconds := Z.rem totalSeconds 60 in
  let milliseconds := Z.rem totalMs 1000 / 10 in
  {| hours := JS.padStart (JS.toString hours) 2 "0";
     minutes := JS.padStart (JS.toString minutes) 2 "0";
     seconds := JS.padStart (JS.toString seconds) 2 "0";
     milliseconds := JS.padStart (JS.toString milliseconds) 2 "0" |}.

(** * The host's interval scheduler ([setInterval] / [clearInterval])

    The host keeps the set of live interval handles.  [setInterval] registers
    a new callback under a handle never used before; [clearInterval] removes
    the handle it is given and ignores [null].  Each machine is embedded with
    the part of the host it talks to. *)
Module Host.

Record Scheduler := mkScheduler {
  live : list nat;
  fresh : nat
}.

Definition setInterval (h : Scheduler) : nat * Scheduler :=
  (fresh h, {| live := fresh h :: live h; fresh := S (fresh h) |}).

Definition clearInterval (id : option nat) (h : Scheduler) : Scheduler :=
  match id with
  | Some i => {| live := List.filter (fun j => negb (Nat.eqb j i)) (live h);
                 fresh := fresh h |}
  | None => h
  end.

(** Whether some periodic callback is scheduled. *)
Definition pending (h : Scheduler) : bool :=
  match live h with
  | [] => false
  | _ :: _ => true
  end.

End Host.

(** * The stopwatch module *)
Module Stopwatch.

Record Lap := mkLap {
  number : Z;
  total : Z;
  diff : Z
}.

(** What the module writes into the page: the four spans of the display,
    the [disabled] flag of each button, the lap counter text and the rows
    of the lap list (label, difference, total), newest first. *)
Record Dom := mkDom {
  display : TimeParts;
  startBtn_disabled : bool;
  pauseBtn_disabled : bool;
  resetBtn_disabled : bool;
  lapBtn_disabled : bool;
  lapCount : string;
  lapList : list (string * string * string)
}.

(** The closure variables of the module, the page and the host. *)
Record State := mkState {
  isRunning : bool;
  startTime : Z;
  elapsedTime : Z;
  intervalId : option nat;
  laps : list Lap;
  dom : Dom;
  host : Host.Scheduler
}.

Definition set_isRunning (b : bool) (s : State) : State :=
  mkState b (startTime s) (elapsedTime s) (intervalId s) (laps s) (dom s) (host s).
Definition set_startTime (t : Z) (s : State) : State :=
  mkState (isRunning s) t (elapsedTime s) (intervalId s) (laps s) (dom s) (host s).
Definition set_elapsedTime (t : Z) (s : State) : State :=
  mkState (isRunning s) (startTime s) t (intervalId s) (laps s) (dom s) (host s).
Definition set_intervalId (i : option nat) (s : State) : State :=
  mkState (isRunning s) (startTime s) (elapsedTime s) i (laps s) (dom s) (host s).
Definition set_laps (l : list Lap) (s : State) : State :=
  mkState (isRunning s) (startTime s) (elapsedTime s) (intervalId s) l (dom s) (host s).
Definition set_dom (d : Dom) (s : State) : State :=
  mkState (isRunning s) (startTime s) (elapsedTime s) (intervalId s) (laps s) d (host s).
Definition set_host (h : Host.Scheduler) (s : State) : State :=
  mkState (isRunning s) (startTime s) (elapsedTime s) (intervalId s) (laps s) (dom s) h.

Definition updateDisplay (s : State) : State :=
  let time := formatTime (elapsedTime s) true in
  let d := dom s in
  set_dom (mkDom time (startBtn_disabled d) (pauseBtn_disabled d)
             (resetBtn_disabled d) (lapBtn_disabled d) (lapCount d) (lapList d)) s.

Definition updateButtons (s : State) : State :=
  let d := dom s in
  set_dom (mkDom (display d)
             (isRunning s)
             (negb (isRunning s))
             (negb (isRunning s) && (elapsedTime s =? 0))
             (negb (isRunning s))
             (lapCount d) (lapList d)) s.

Definition lapRow (lap : Lap) : string * string * string :=
  let totalTime := formatTime (total lap) true in
  let diffTime := formatTime (diff lap) true in
  ("Lap " ++ JS.toString (number lap),
   "+" ++ minutes diffTime ++ ":" ++ seconds diffTime ++ "." ++ milliseconds diffTime,
   hours totalTime ++ ":" ++ minutes totalTime ++ ":" ++ seconds totalTime
     ++ "." ++ milliseconds totalTime)%string.

(** [renderLaps()]: the counter text and the rows, newest first; with no
    lap the list holds the placeholder message, here the empty list of
    rows. *)
Definition renderLaps (s : State) : State :=
  let d := dom s in
  let lapText :=
    if (length (laps s) =? 1)%nat then "1 lap"%string
    else (JS.toString (Z.of_nat (length (laps s))) ++ " laps")%string in
  set_dom (mkDom (display d) (startBtn_disabled d) (pauseBtn_disabled d)
             (resetBtn_disabled d) (lapBtn_disabled d)
             lapText (List.map lapRow (rev (laps s)))) s.

(** [start()], run when the clock reads [now]. *)
Definition start (now : Z) (s : State) : State :=
  if isRunning s then s
  else
    let s := set_isRunning true s in
    let s := set_startTime (now - elapsedTime s) s in
    let '(id, h) := Host.setInterval (host s) in
    let s := set_intervalId (Some id) (set_host h s) in
    updateButtons s.

(** The callback given to [setInterval], run when the clock reads [now]. *)
Definition onInterval (now : Z) (s : State) : State :=
  let s := set_elapsedTime (now - startTime s) s in
  updateDisplay s.

Definition pause (s : State) : State :=
  if negb (isRunning s) then s
  else
    let s := set_isRunning false s in
    let s := set_host (Host.clearInterval (intervalId s) (host s)) s in
    let s := set_intervalId None s in
    updateButtons s.

Definition reset (s : State) : State :=
  let s := pause s in
  let s := set_elapsedTime 0 s in
  let s := set_laps [] s in
  renderLaps (updateButtons (updateDisplay s)).

Definition recordLap (s : State) : State :=
  if negb (isRunning s) then s
  else
    let lapTime := elapsedTime s in
    let prevLapTime :=
      match last (laps s) with
      | Some l => total l
      | None => 0
      end in
    let diff := lapTime - prevLapTime in
    let s := set_laps (laps s ++ [mkLap (Z.of_nat (length (laps s)) + 1) lapTime diff]) s in
    renderLaps s.

(** The module as it is before [init]: the initial values of the closure
    variables, over whatever the page holds and a host with no interval of
    this module. *)
Definition boot (d : Dom) (firstHandle : nat) : State :=
  mkState false 0 0 None [] d (Host.mkScheduler [] firstHandle).

(** [init()]: the initial render (the listeners it attaches are the
    actions below). *)
Definition init (s : State) : State :=
  renderLaps (updateButtons (updateDisplay s)).

(** What can happen to the module after [init]: a click on one of the four
    buttons, or the host running the interval callback. *)
Inductive Action := Start | Pause | Reset | RecordLap | Tick.

(** One event, occurring when the clock reads [now].  The host runs the
    callback only while an interval is live. *)
Definition step (now : Z) (a : Action) (s : State) : State :=
  match a with
  | Start => start now s
  | Pause => pause s
  | Reset => reset s
  | RecordLap => recordLap s
  | Tick => if Host.pending (host s) then onInterval now s else s
  end.

(** A history: the events in the order they happen, each with the clock
    reading at that moment. *)
Definition run (tr : list (Z * Action)) (s : State) : State :=
  fold_left (fun s e => step (fst e) (snd e) s) tr s.

(** The clock never goes backwards along the history, starting from the
    reading [c]. *)
Fixpoint chronological (c : Z) (tr : list (Z * Action)) : bool :=
  match tr with
  | [] => true
  | e :: tr' => (c <=? fst e) && chronological (fst e) tr'
  end.

(** The states the module can be in. *)
Inductive reachable : State -> Prop :=
| reachable_init d h : reachable (init (boot d h))
| reachable_step now a s : reachable s -> reachable (step now a s).

(** The total of the lap before position [i], or [0] at the first. *)
Definition prevTotal (l : list Lap) (i : nat) : Z :=
  match i with
  | O => 0
  | S j => match l !! j with Some p => total p | None => 0 end
  end.

(** Every lap's difference is its total minus the previous lap's total. *)
Definition lapsDeltaOk (l : list Lap) : Prop :=
  forall i lap, l !! i = Some lap -> diff lap = total lap - prevTotal l i.

(** Totals never decrease along the list. *)
Definition lapsNonDecreasing (l : list Lap) : Prop :=
  forall i j a b, (i <= j)%nat -> l !! i = Some a -> l !! j = Some b ->
                  total a <= total b.

(** The clock never goes backwards along the whole history. *)
Definition clockMonotone (tr : list (Z * Action)) : bool :=
  match tr with
  | [] => true
  | e :: tr' => chronological (fst e) tr'
  end.

(** The module keeps at most one interval: the host's live handles are
    exactly the one stored in [intervalId], and none is stored while the
    stopwatch is not running. *)
Definition wellScheduled (s : State) : Prop :=
  Host.live (host s) = match intervalId s with Some i => [i] | None => [] end
  /\ (isRunning s = false -> intervalId s = None).

(** With the clock at [c] or later: totals are ordered, the last lap is
    not beyond the elapsed time, and a running stopwatch started no later
    than [c - elapsed]. *)
Definition inStep (c : Z) (s : State) : Prop :=
  lapsNonDecreasing (laps s)
  /\ (forall lap, last (laps s) = Some lap -> total lap <= elapsedTime s)
  /\ (isRunning s = true -> elapsedTime s + startTime s <= c).

(** A page as it may be before [init], for concrete runs. *)
Definition blankDom : Dom :=
  mkDom (mkTimeParts "" "" "" "") false false false false "" [].

(** What the page holds when it is up to date with the closure variables:
    the formatted elapsed time, each button's flag as [updateButtons]
    computes it, and the lap counter and rows as [renderLaps] writes them. *)
Definition rendered (s : State) : Dom :=
  mkDom (formatTime (elapsedTime s) true)
    (isRunning s)
    (negb (isRunning s))
    (negb (isRunning s) && (elapsedTime s =? 0))
    (negb (isRunning s))
    (if (length (laps s) =? 1)%nat then "1 lap"%string
     else (JS.toString (Z.of_nat (length (laps s))) ++ " laps")%string)
    (List.map lapRow (rev (laps s))).

(** The last clock reading of a history that starts at reading [c]. *)
Definition lastReading (c : Z) (tr : list (Z * Action)) : Z :=
  fold_left (fun _ e => fst e) tr c.

(** The sum of the differences of a lap list. *)
Definition sumDiffs (l : list Lap) : Z :=
  fold_right (fun lap acc => diff lap + acc) 0 l.

(** The callback attempted at each of the given clock readings, nothing
    else happening in between. *)
Definition ticks (readings : list Z) (s : State) : State :=
  fold_left (fun s now => step now Tick s) readings s.

(** Exactly one interval while running, none otherwise. *)
Definition oneInterval (s : State) : Prop :=
  (isRunning s = true -> exists i, intervalId s = Some i /\ Host.live (host s) = [i])
  /\ (isRunning s = false -> intervalId s = None /\ Host.live (host s) = []).

End Stopwatch.

(** * The countdown timer module *)
Module Timer.

(** An input field: what [parseInt] finds in its [value] ([None] for
    [NaN]) and its [disabled] flag. *)
Record InputEl := mkInputEl {
  value : option Z;
  disabled : bool
}.

(** The colour class of the display: [updateDisplay] removes both classes
    and adds at most one. *)
Inductive Tone := Plain | Warning | Danger.

Record Dom := mkDom {
  display : string * string * string;
  tone : Tone;
  startBtn_disabled : bool;
  pauseBtn_disabled : bool;
  resetBtn_disabled : bool;
  hoursInput : InputEl;
  minutesInput : InputEl;
  secondsInput : InputEl;
  overlay_hidden : bool
}.

(** One request to the alert collaborator: [playBeep(frequency, duration)]
    issued [delay] milliseconds after [showComplete] is called (the
    duration, half a second, is kept in milliseconds). *)
Record Beep := mkBeep {
  delay : Z;
  frequency : Z;
  durationMs : Z
}.

Record State := mkState {
  isRunning : bool;
  remainingTime : Z;
  totalTime : Z;
  intervalId : option nat;
  endTime : Z;
  dom : Dom;
  host : Host.Scheduler;
  sounds : list Beep
}.

Definition set_isRunning (b : bool) (s : State) : State :=
  mkState b (remainingTime s) (totalTime s) (intervalId s) (endTime s) (dom s) (host s) (sounds s).
Definition set_remainingTime (t : Z) (s : State) : State :=
  mkState (isRunning s) t (totalTime s) (intervalId s) (endTime s) (dom s) (host s) (sounds s).
Definition set_totalTime (t : Z) (s : State) : State :=
  mkState (isRunning s) (remainingTime s) t (intervalId s) (endTime s) (dom s) (host s) (sounds s).
Definition set_intervalId (i : option nat) (s : State) : State :=
  mkState (isRunning s) (remainingTime s) (totalTime s) i (endTime s) (dom s) (host s) (sounds s).
Definition set_endTime (t : Z) (s : State) : State :=
  mkState (isRunning s) (remainingTime s) (totalTime s) (intervalId s) t (dom s) (host s) (sounds s).
Definition set_dom (d : Dom) (s : State) : State :=
  mkState (isRunning s) (remainingTime s) (totalTime s) (intervalId s) (endTime s) d (host s) (sounds s).
Definition set_host (h : Host.Scheduler) (s : State) : State :=
  mkState (isRunning s) (remainingTime s) (totalTime s) (intervalId s) (endTime s) (dom s) h (sounds s).
Definition set_sounds (l : list Beep) (s : State) : State :=
  mkState (isRunning s) (remainingTime s) (totalTime s) (intervalId s) (endTime s) (dom s) (host s) l.

(** [parseInt(v) || 0]: [NaN] and [0] both give [0]. *)
Definition orZero (v : option Z) : Z :=
  match v with
  | Some n => n
  | None => 0
  end.

Definition getInputTime (d : Dom) : Z :=
  let hours := Z.max 0 (orZero (value (hoursInput d))) in
  let minutes := Z.max 0 (Z.min 59 (orZero (value (minutesInput d)))) in
  let seconds := Z.max 0 (Z.min 59 (orZero (value (secondsInput d)))) in
  (hours * 3600 + minutes * 60 + seconds) * 1000.

Definition updateDisplay (s : State) : State :=
  let time := formatTime (remainingTime s) false in
  let d := dom s in
  let tone :=
    if (remainingTime s <=? 10000) && (0 <? remainingTime s) then Danger
    else if (remainingTime s <=? 30000) && (0 <? remainingTime s) then Warning
    else Plain in
  set_dom (mkDom (hours time, minutes time, seconds time) tone
             (startBtn_disabled d) (pauseBtn_disabled d) (resetBtn_disabled d)
             (hoursInput d) (minutesInput d) (secondsInput d) (overlay_hidden d)) s.

Definition updateButtons (s : State) : State :=
  let hasTime := (0 <? remainingTime s) || (0 <? getInputTime (dom s)) in
  let d := dom s in
  set_dom (mkDom (display d) (tone d)
             (isRunning s || negb hasTime)
             (negb (isRunning s))
             (negb (isRunning s) && (remainingTime s =? totalTime s)
                && (totalTime s =? getInputTime (dom s)))
             (mkInputEl (value (hoursInput d)) (isRunning s))
             (mkInputEl (value (minutesInput d)) (isRunning s))
             (mkInputEl (value (secondsInput d)) (isRunning s))
             (overlay_hidden d)) s.

Definition updateDisplayFromInputs (s : State) : State :=
  if negb (isRunning s) then
    let s := set_remainingTime (getInputTime (dom s)) s in
    let s := set_totalTime (remainingTime s) s in
    updateButtons (updateDisplay s)
  else s.

Inductive Field := Hours | Minutes | Seconds.

Definition field (f : Field) (d : Dom) : InputEl :=
  match f with
  | Hours => hoursInput d
  | Minutes => minutesInput d
  | Seconds => secondsInput d
  end.

Definition set_field (f : Field) (i : InputEl) (d : Dom) : Dom :=
  mkDom (display d) (tone d) (startBtn_disabled d) (pauseBtn_disabled d)
    (resetBtn_disabled d)
    (match f with Hours => i | _ => hoursInput d end)
    (match f with Minutes => i | _ => minutesInput d end)
    (match f with Seconds => i | _ => secondsInput d end)
    (overlay_hidden d).

Definition validateInput (f : Field) (min max : Z) (s : State) : State :=
  let i := field f (dom s) in
  let value := orZero (value i) in
  let value := Z.max min (Z.min max value) in
  set_dom (set_field f (mkInputEl (Some value) (disabled i)) (dom s)) s.

Definition set_overlay_hidden (b : bool) (s : State) : State :=
  let d := dom s in
  set_dom (mkDom (display d) (tone d) (startBtn_disabled d) (pauseBtn_disabled d)
             (resetBtn_disabled d) (hoursInput d) (minutesInput d) (secondsInput d) b) s.

Definition showComplete (s : State) : State :=
  let s := set_overlay_hidden false s in
  set_sounds (sounds s ++ [mkBeep 0 800 500; mkBeep 300 800 500; mkBeep 600 800 500]) s.

Definition hideComplete (s : State) : State := set_overlay_hidden true s.

Definition pause (s : State) : State :=
  if negb (isRunning s) then s
  else
    let s := set_isRunning false s in
    let s := set_host (Host.clearInterval (intervalId s) (host s)) s in
    let s := set_intervalId None s in
    updateButtons s.

Definition complete (s : State) : State :=
  let s := pause s in
  let s := set_remainingTime 0 s in
  showComplete (updateButtons (updateDisplay s)).

(** The callback given to [setInterval], run when the clock reads [now]. *)
Definition onInterval (now : Z) (s : State) : State :=
  let s := set_remainingTime (Z.max 0 (endTime s - now)) s in
  let s := updateDisplay s in
  if remainingTime s <=? 0 then complete s else s.

(** [start()], run when the clock reads [now]. *)
Definition start (now : Z) (s : State) : State :=
  if isRunning s then s
  else
    let s :=
      if remainingTime s =? 0 then
        let s := set_remainingTime (getInputTime (dom s)) s in
        set_totalTime (remainingTime s) s
      else s in
    if remainingTime s <=? 0 then s
    else
      let s := set_isRunning true s in
      let s := set_endTime (now + remainingTime s) s in
      let '(id, h) := Host.setInterval (host s) in
      let s := set_intervalId (Some id) (set_host h s) in
      updateButtons s.

Definition reset (s : State) : State :=
  let s := pause s in
  let s := set_remainingTime (getInputTime (dom s)) s in
  let s := set_totalTime (remainingTime s) s in
  hideComplete (updateButtons (updateDisplay s)).

(** The three [input] listeners: clamp the field, then refresh. *)
Definition onInput (f : Field) (s : State) : State :=
  let max := match f with Hours => 99 | _ => 59 end in
  updateDisplayFromInputs (validateInput f 0 max s).

(** The listener of the dismiss button. *)
Definition onDismiss (s : State) : State := reset (hideComplete s).

Definition boot (d : Dom) (firstHandle : nat) : State :=
  mkState false 0 0 None 0 d (Host.mkScheduler [] firstHandle) [].

Definition init (s : State) : State :=
  updateButtons (updateDisplayFromInputs s).

(** What can happen after [init]: a click on a button, the user typing
    [v] into a field, or the host running the interval callback. *)
Inductive Action :=
| Start | Pause | Reset | Dismiss
| Input (f : Field) (v : option Z)
| Tick.

(** One event, occurring when the clock reads [now].  A disabled field
    takes no user input, and the host runs the callback only while an
    interval is live. *)
Definition step (now : Z) (a : Action) (s : State) : State :=
  match a with
  | Start => start now s
  | Pause => pause s
  | Reset => reset s
  | Dismiss => onDismiss s
  | Input f v =>
      if disabled (field f (dom s)) then s
      else onInput f (set_dom (set_field f (mkInputEl v false) (dom s)) s)
  | Tick => if Host.pending (host s) then onInterval now s else s
  end.

Inductive reachable : State -> Prop :=
| reachable_init d h : reachable (init (boot d h))
| reachable_step now a s : reachable s -> reachable (step now a s).

(** The callback run once at each of the given clock readings, with
    nothing else happening in between. *)
Definition ticks (readings : list Z) (s : State) : State :=
  fold_left (fun s now => step now Tick s) readings s.

(** The state after the first [m] callbacks of an uninterrupted run, the
    [j]-th of them running when the clock reads [clock j]. *)
Definition afterTicks (clock : nat -> Z) (m : nat) (s : State) : State :=
  ticks (List.map clock (seq 0 m)) s.

(** The time a run started in state [s] counts down: the configured
    duration when the timer stands at zero, otherwise the time remaining
    (which is the configured duration after [init], [reset] or an edit of
    the fields, and what was left when the timer was paused). *)
Definition runLength (s : State) : Z :=
  if remainingTime s =? 0 then getInputTime (dom s) else remainingTime s.

(** The three beeps requested by one completion. *)
Definition completionBeeps : list Beep :=
  [mkBeep 0 800 500; mkBeep 300 800 500; mkBeep 600 800 500].

(** What every reachable state satisfies: the module keeps at most one
    interval, stored in [intervalId] exactly while running; the three fields
    are disabled exactly while running; the remaining time is not negative;
    and when the fields hold no time, the timer is idle at zero. *)
Definition consistent (s : State) : Prop :=
  Host.live (host s) = match intervalId s with Some i => [i] | None => [] end
  /\ (isRunning s = false -> intervalId s = None)
  /\ (isRunning s = true -> exists i, intervalId s = Some i)
  /\ disabled (hoursInput (dom s)) = isRunning s
  /\ disabled (minutesInput (dom s)) = isRunning s
  /\ disabled (secondsInput (dom s)) = isRunning s
  /\ 0 <= remainingTime s
  /\ (getInputTime (dom s) <= 0 ->
      isRunning s = false /\ remainingTime s = 0 /\ totalTime s = 0).

(** A history of the timer: the events in the order they happen, each
    with the clock reading at that moment. *)
Definition run (tr : list (Z * Action)) (s : State) : State :=
  fold_left (fun s e => step (fst e) (snd e) s) tr s.

(** The clock never goes backwards along the history, starting from the
    reading [c]; and along the whole history. *)
Fixpoint chronological (c : Z) (tr : list (Z * Action)) : bool :=
  match tr with
  | [] => true
  | e :: tr' => (c <=? fst e) && chronological (fst e) tr'
  end.

Definition clockMonotone (tr : list (Z * Action)) : bool :=
  match tr with
  | [] => true
  | e :: tr' => chronological (fst e) tr'
  end.

(** The three buttons are disabled as [updateButtons] would set them now. *)
Definition buttonsReflect (s : State) : Prop :=
  startBtn_disabled (dom s)
  = (isRunning s || negb ((0 <? remainingTime s) || (0 <? getInputTime (dom s))))
  /\ pauseBtn_disabled (dom s) = negb (isRunning s)
  /\ resetBtn_disabled (dom s)
     = (negb (isRunning s) && (remainingTime s =? totalTime s)
        && (totalTime s =? getInputTime (dom s))).

(** With the clock at [c] or later: the remaining time lies between 0 and
    the total, and a running timer ends no later than [c + remaining]. *)
Definition paced (c : Z) (s : State) : Prop :=
  0 <= remainingTime s <= totalTime s
  /\ (isRunning s = true -> endTime s - c <= remainingTime s).

(** What [updateDisplay] writes for a remaining time [r]: hours, minutes
    and seconds of the formatted time, and the colour class. *)
Definition shown (r : Z) : (string * string * string) * Tone :=
  let time := formatTime r false in
  ((hours time, minutes time, seconds time),
   if (r <=? 10000) && (0 <? r) then Danger
   else if (r <=? 30000) && (0 <? r) then Warning
   else Plain).

(** The largest value of a field that survives its [input] listener. *)
Definition fieldMax (f : Field) : Z :=
  match f with Hours => 99 | _ => 59 end.

(** A page as it may be before [init], for concrete runs: the three
    fields hold the given numbers. *)
Definition pageWith (h m sec : Z) : Dom :=
  mkDom (""%string, ""%string, ""%string) Plain false false false
    (mkInputEl (Some h) false) (mkInputEl (Some m) false) (mkInputEl (Some sec) false)
    true.

End Timer.

(** * The specification's wording of the formatting contract *)
Module Spec.

(** The components of a clamped duration [c], as the specification
    writes them. *)
Definition hoursOf (c : Z) : Z := c / 3600000.
Definition minutesOf (c : Z) : Z := (c mod 3600000) / 60000.
Definition secondsOf (c : Z) : Z := (c / 1000) mod 60.
Definition hundredthsOf (c : Z) : Z := (c mod 1000) / 10.

(** The fixed-width, zero-padded two-digit numeral: tens, then units. *)
Definition twoDigits (n : Z) : string :=
  String (JS.digitChar (n / 10)) (String (JS.digitChar (n mod 10)) EmptyString).

(** [s] is a two-digit decimal string denoting [n]: exactly two
    characters, both decimal digits, read as tens and units. *)
Definition twoDigitNumeral (n : Z) (s : string) : Prop :=
  exists a b, 0 <= a < 10 /\ 0 <= b < 10
              /\ s = String (JS.digitChar a) (String (JS.digitChar b) EmptyString)
              /\ n = 10 * a + b.

(** The contract as worded: every component is a two-digit numeral. *)
Definition allTwoDigits (ms : Z) (t : TimeParts) : Prop :=
  let c := Z.max 0 ms in
  twoDigitNumeral (hoursOf c) (hours t)
  /\ twoDigitNumeral (minutesOf c) (minutes t)
  /\ twoDigitNumeral (secondsOf c) (seconds t)
  /\ twoDigitNumeral (hundredthsOf c) (milliseconds t).

(** Padding to a minimum of two digits: the two-digit numeral below 100,
    the plain decimal numeral from 100 on. *)
Definition atLeastTwoDigits (n : Z) : string :=
  if n <? 100 then twoDigits n else JS.toString n.

End Spec.

(** * Concrete runs of [formatTime] *)

Example formatTime_90s :
  formatTime 90000 false = mkTimeParts "00" "01" "30" "00".
Proof. reflexivity. Qed.

Example formatTime_mixed :
  formatTime 3723450 true = mkTimeParts "01" "02" "03" "45".
Proof. reflexivity. Qed.

Example formatTime_negative :
  formatTime (-5) true = mkTimeParts "00" "00" "00" "00".
Proof. reflexivity. Qed.

Example formatTime_100h :
  formatTime 360000000 true = mkTimeParts "100" "00" "00" "00".
Proof. reflexivity. Qed.

(** * Decimal numerals *)
Section Numerals.

Lemma length_append (s t : string) :
  String.length (s ++ t) = (String.length s + String.length t)%nat.
Proof. induction s as [|c s IH]; simpl; [reflexivity | now rewrite IH]. Qed.

Lemma digitValue_digitChar (d : Z) :
  0 <= d < 10 -> JS.digitValue (JS.digitChar d) = d.
Proof.
  intros Hd. unfold JS.digitValue, JS.digitChar.
  rewrite nat_ascii_embedding by lia. lia.
Qed.

Lemma valueFrom_snoc (s : string) (c : ascii) (acc : Z) :
  JS.valueFrom acc (s ++ String c EmptyString)
  = 10 * JS.valueFrom acc s + JS.digitValue c.
Proof.
  revert acc. induction s as [|a s IH]; intros acc; simpl; [reflexivity | apply IH].
Qed.

Lemma digits_small (fuel : nat) (n : Z) :
  0 <= n < 10 -> JS.digits fuel n = String (JS.digitChar n) EmptyString.
Proof.
  intros Hn. destruct fuel as [|fuel]; simpl.
  - now rewrite Z.mod_small by lia.
  - destruct (Z.ltb_spec n 10); [reflexivity | lia].
Qed.

Lemma digits_step (fuel : nat) (n : Z) :
  10 <= n ->
  JS.digits (S fuel) n
  = (JS.digits fuel (n / 10) ++ String (JS.digitChar (n mod 10)) EmptyString)%string.
Proof.
  intros Hn. simpl. destruct (Z.ltb_spec n 10); [lia | reflexivity].
Qed.

(** With enough fuel the digits read back as the number. *)
Lemma digits_value (fuel : nat) :
  forall n, 0 <= n < 10 ^ (Z.of_nat fuel + 1) ->
            JS.decimalValue (JS.digits fuel n) = n.
Proof.
  unfold JS.decimalValue.
  induction fuel as [|fuel IH]; intros n Hn.
  - change (10 ^ (Z.of_nat 0 + 1)) with 10 in Hn.
    rewrite digits_small by lia. simpl. rewrite digitValue_digitChar; lia.
  - destruct (Z.lt_ge_cases n 10) as [Hs|Hb].
    + rewrite digits_small by lia. simpl. rewrite digitValue_digitChar; lia.
    + rewrite digits_step by lia. rewrite valueFrom_snoc.
      rewrite IH.
      * rewrite digitValue_digitChar by (apply Z.mod_pos_bound; lia).
        pose proof (Z.div_mod n 10). lia.
      * split; [apply Z.div_pos; lia |].
        apply Z.div_lt_upper_bound; [lia |].
        replace (Z.of_nat (S fuel) + 1) with (Z.succ (Z.of_nat fuel + 1)) in Hn by lia.
        rewrite Z.pow_succ_r in Hn by lia. lia.
Qed.

(** [Z.log2 n] is enough fuel. *)
Lemma log2_fuel (n : Z) :
  0 <= n -> n < 10 ^ (Z.of_nat (Z.to_nat (Z.log2 n)) + 1).
Proof.
  intros Hn. rewrite Z2Nat.id by apply Z.log2_nonneg.
  destruct (Z.eq_dec n 0) as [->|Hz]; [reflexivity |].
  pose proof (Z.log2_spec n ltac:(lia)) as [_ Hu].
  pose proof (Z.log2_nonneg n).
  assert (2 ^ Z.succ (Z.log2 n) <= 10 ^ Z.succ (Z.log2 n))
    by (apply Z.pow_le_mono_l; lia).
  replace (Z.log2 n + 1) with (Z.succ (Z.log2 n)) by lia. lia.
Qed.

Lemma toString_nonneg (n : Z) :
  0 <= n -> JS.toString n = JS.digits (Z.to_nat (Z.log2 n)) n.
Proof.
  intros Hn. unfold JS.toString. destruct (Z.ltb_spec n 0); [lia | reflexivity].
Qed.

(** [String(n)] is the decimal numeral of [n]. *)
Lemma toString_value (n : Z) :
  0 <= n -> JS.decimalValue (JS.toString n) = n.
Proof.
  intros Hn. rewrite toString_nonneg by assumption.
  apply digits_value. split; [assumption | now apply log2_fuel].
Qed.

(** A number of at least [10^k] has more than [k] digits. *)
Lemma digits_length_lower (fuel : nat) :
  forall n (k : nat),
    0 <= n < 10 ^ (Z.of_nat fuel + 1) -> 10 ^ Z.of_nat k <= n ->
    (k < String.length (JS.digits fuel n))%nat.
Proof.
  induction fuel as [|fuel IH]; intros n k Hn Hk.
  - change (10 ^ (Z.of_nat 0 + 1)) with 10 in Hn.
    rewrite digits_small by lia. simpl.
    destruct k as [|k]; [lia |].
    rewrite Nat2Z.inj_succ, Z.pow_succ_r in Hk by lia.
    assert (0 < 10 ^ Z.of_nat k) by (apply Z.pow_pos_nonneg; lia). lia.
  - replace (Z.of_nat (S fuel) + 1) with (Z.succ (Z.of_nat fuel + 1)) in Hn by lia.
    rewrite Z.pow_succ_r in Hn by lia.
    destruct k as [|k].
    { destruct (JS.digits (S fuel) n) eqn:E; simpl; [| lia].
      simpl in E. destruct (n <? 10); [discriminate |].
      destruct (JS.digits fuel (n / 10)); discriminate. }
    rewrite Nat2Z.inj_succ, Z.pow_succ_r in Hk by lia.
    assert (0 < 10 ^ Z.of_nat k) by (apply Z.pow_pos_nonneg; lia).
    rewrite digits_step by lia. rewrite length_append. simpl.
    assert (k < String.length (JS.digits fuel (n / 10)))%nat; [| lia].
    apply IH.
    + split; [apply Z.div_pos; lia | apply Z.div_lt_upper_bound; lia].
    + apply Z.div_le_lower_bound; lia.
Qed.

(** A number below [10^(k+1)] has at most [k+1] digits. *)
Lemma digits_length_upper (fuel : nat) :
  forall n (k : nat),
    0 <= n < 10 ^ (Z.of_nat k + 1) ->
    (String.length (JS.digits fuel n) <= k + 1)%nat.
Proof.
  induction fuel as [|fuel IH]; intros n k Hn; [simpl; lia |].
  destruct (Z.lt_ge_cases n 10) as [Hs|Hb].
  - rewrite digits_small by lia. simpl. lia.
  - rewrite digits_step by lia. rewrite length_append. simpl.
    destruct k as [|k]; [change (10 ^ (Z.of_nat 0 + 1)) with 10 in Hn; lia |].
    replace (Z.of_nat (S k) + 1) with (Z.succ (Z.of_nat k + 1)) in Hn by lia.
    rewrite Z.pow_succ_r in Hn by lia.
    assert (String.length (JS.digits fuel (n / 10)) <= k + 1)%nat; [| lia].
    apply IH. split; [apply Z.div_pos; lia | apply Z.div_lt_upper_bound; lia].
Qed.

Lemma toString_length_1 (n : Z) :
  0 <= n < 10 -> JS.toString n = String (JS.digitChar n) EmptyString.
Proof.
  intros Hn. rewrite toString_nonneg by lia. now apply digits_small.
Qed.

Lemma toString_length_ge (n : Z) (k : nat) :
  10 ^ Z.of_nat k <= n -> (k < String.length (JS.toString n))%nat.
Proof.
  intros Hk.
  assert (0 < 10 ^ Z.of_nat k) by (apply Z.pow_pos_nonneg; lia).
  rewrite toString_nonneg by lia.
  apply digits_length_lower; [| assumption].
  split; [lia | apply log2_fuel; lia].
Qed.

Lemma toString_length_le (n : Z) (k : nat) :
  0 <= n < 10 ^ (Z.of_nat k + 1) -> (String.length (JS.toString n) <= k + 1)%nat.
Proof.
  intros Hn. rewrite toString_nonneg by lia. now apply digits_length_upper.
Qed.

End Numerals.

(** * Padding *)
Section Padding.

Lemma repeat_length (c : ascii) (k : nat) : String.length (JS.repeat c k) = k.
Proof. induction k as [|k IH]; simpl; [reflexivity | now rewrite IH]. Qed.

Lemma padStart_length (s : string) (target : nat) (c : ascii) :
  String.length (JS.padStart s target c) = Nat.max target (String.length s).
Proof.
  unfold JS.padStart. destruct (Nat.leb_spec target (String.length s)).
  - lia.
  - rewrite length_append, repeat_length. lia.
Qed.

Lemma toString_two (n : Z) :
  10 <= n < 100 -> JS.toString n = Spec.twoDigits n.
Proof.
  intros Hn. rewrite toString_nonneg by lia.
  assert (3 <= Z.log2 n) by (change 3 with (Z.log2 10); apply Z.log2_le_mono; lia).
  destruct (Z.to_nat (Z.log2 n)) as [|fuel] eqn:E; [lia |].
  rewrite digits_step by lia.
  rewrite digits_small; [reflexivity |].
  split; [apply Z.div_pos; lia | apply Z.div_lt_upper_bound; lia].
Qed.

(** Below 100, padding the numeral to two characters gives tens and units. *)
Lemma padStart_two (n : Z) :
  0 <= n < 100 -> JS.padStart (JS.toString n) 2 "0" = Spec.twoDigits n.
Proof.
  intros Hn. destruct (Z.lt_ge_cases n 10) as [Hs|Hb].
  - rewrite toString_length_1 by lia. unfold Spec.twoDigits.
    rewrite Z.div_small, Z.mod_small by lia. reflexivity.
  - rewrite toString_two by lia. reflexivity.
Qed.

(** From 100 on, padding leaves the numeral as it is. *)
Lemma padStart_long (n : Z) :
  100 <= n -> JS.padStart (JS.toString n) 2 "0" = JS.toString n.
Proof.
  intros Hn. pose proof (toString_length_ge n 2 ltac:(simpl; lia)).
  unfold JS.padStart. destruct (Nat.leb_spec 2 (String.length (JS.toString n))); [reflexivity | lia].
Qed.

Lemma padStart_atLeastTwo (n : Z) :
  0 <= n -> JS.padStart (JS.toString n) 2 "0" = Spec.atLeastTwoDigits n.
Proof.
  intros Hn. unfold Spec.atLeastTwoDigits. destruct (Z.ltb_spec n 100).
  - apply padStart_two; lia.
  - apply padStart_long; lia.
Qed.

Lemma twoDigits_value (n : Z) :
  0 <= n < 100 -> JS.decimalValue (Spec.twoDigits n) = n.
Proof.
  intros Hn. unfold Spec.twoDigits, JS.decimalValue. simpl.
  rewrite !digitValue_digitChar.
  - pose proof (Z.div_mod n 10). lia.
  - apply Z.mod_pos_bound; lia.
  - split; [apply Z.div_pos; lia | apply Z.div_lt_upper_bound; lia].
Qed.

Lemma twoDigits_numeral (n : Z) :
  0 <= n < 100 -> Spec.twoDigitNumeral n (Spec.twoDigits n).
Proof.
  intros Hn. exists (n / 10), (n mod 10).
  pose proof (Z.div_mod n 10 ltac:(lia)).
  pose proof (Z.mod_pos_bound n 10 ltac:(lia)).
  assert (0 <= n / 10 < 10)
    by (split; [apply Z.div_pos; lia | apply Z.div_lt_upper_bound; lia]).
  repeat split; try lia.
Qed.

Lemma atLeastTwoDigits_value (n : Z) :
  0 <= n -> JS.decimalValue (Spec.atLeastTwoDigits n) = n.
Proof.
  intros Hn. unfold Spec.atLeastTwoDigits. destruct (Z.ltb_spec n 100).
  - apply twoDigits_value; lia.
  - apply toString_value; lia.
Qed.

End Padding.

(** * The components computed by [formatTime] *)
Section Components.

Lemma formatTime_parts (ms : Z) (b : bool) :
  formatTime ms b =
  {| hours := JS.padStart (JS.toString (hours_of ms)) 2 "0";
     minutes := JS.padStart (JS.toString (minutes_of ms)) 2 "0";
     seconds := JS.padStart (JS.toString (seconds_of ms)) 2 "0";
     milliseconds := JS.padStart (JS.toString (milliseconds_of ms)) 2 "0" |}.
Proof. reflexivity. Qed.

Lemma totalMs_nonneg (ms : Z) : 0 <= totalMs_of ms.
Proof. unfold totalMs_of. lia. Qed.

Lemma totalSeconds_nonneg (ms : Z) : 0 <= totalSeconds_of ms.
Proof. unfold totalSeconds_of. apply Z.div_pos; [apply totalMs_nonneg | lia]. Qed.

(** The code's components are the specification's. *)
Lemma hours_of_spec (ms : Z) : hours_of ms = Spec.hoursOf (Z.max 0 ms).
Proof.
  unfold hours_of, totalSeconds_of, totalMs_of, Spec.hoursOf.
  rewrite Z.div_div by lia. reflexivity.
Qed.

Lemma minutes_of_spec (ms : Z) : minutes_of ms = Spec.minutesOf (Z.max 0 ms).
Proof.
  pose proof (totalMs_nonneg ms) as Hc. pose proof (totalSeconds_nonneg ms) as Hs.
  unfold minutes_of, Spec.minutesOf. rewrite Z.rem_mod_nonneg by lia.
  unfold totalSeconds_of, totalMs_of in *. set (c := Z.max 0 ms) in *.
  change 3600000 with (1000 * 3600).
  rewrite Z.rem_mul_r by lia.
  change 60000 with (1000 * 60). rewrite <- Z.div_div by lia.
  rewrite (Z.add_comm (c mod 1000)), (Z.mul_comm 1000).
  rewrite Z.div_add_l by lia.
  rewrite (Z.div_small (c mod 1000) 1000) by (apply Z.mod_pos_bound; lia).
  now rewrite Z.add_0_r.
Qed.

Lemma seconds_of_spec (ms : Z) : seconds_of ms = Spec.secondsOf (Z.max 0 ms).
Proof.
  pose proof (totalSeconds_nonneg ms).
  unfold seconds_of, Spec.secondsOf. rewrite Z.rem_mod_nonneg by lia. reflexivity.
Qed.

Lemma milliseconds_of_spec (ms : Z) :
  milliseconds_of ms = Spec.hundredthsOf (Z.max 0 ms).
Proof.
  pose proof (totalMs_nonneg ms).
  unfold milliseconds_of, Spec.hundredthsOf. rewrite Z.rem_mod_nonneg by lia. reflexivity.
Qed.

Lemma hoursOf_nonneg (c : Z) : 0 <= c -> 0 <= Spec.hoursOf c.
Proof. intros. unfold Spec.hoursOf. apply Z.div_pos; lia. Qed.

Lemma minutesOf_range (c : Z) : 0 <= Spec.minutesOf c <= 59.
Proof.
  unfold Spec.minutesOf. pose proof (Z.mod_pos_bound c 3600000 ltac:(lia)).
  split; [apply Z.div_pos; lia |].
  assert (c mod 3600000 / 60000 < 60) by (apply Z.div_lt_upper_bound; lia). lia.
Qed.

Lemma secondsOf_range (c : Z) : 0 <= Spec.secondsOf c <= 59.
Proof.
  unfold Spec.secondsOf. pose proof (Z.mod_pos_bound (c / 1000) 60 ltac:(lia)). lia.
Qed.

Lemma hundredthsOf_range (c : Z) : 0 <= Spec.hundredthsOf c <= 99.
Proof.
  unfold Spec.hundredthsOf. pose proof (Z.mod_pos_bound c 1000 ltac:(lia)).
  split; [apply Z.div_pos; lia |].
  assert (c mod 1000 / 10 < 100) by (apply Z.div_lt_upper_bound; lia). lia.
Qed.

End Components.

(** * The formatting contract *)

(** C1 (as worded, refuted): at one hundred hours the hours component is
    ["100"], three characters long, so not every component of [formatTime]
    is a fixed-width two-digit string. *)
Lemma formatTime_hours_not_two_digits :
  ~ Spec.allTwoDigits 360000000 (formatTime 360000000 true).
Proof.
  unfold Spec.allTwoDigits. intros [(a & b & _ & _ & Hs & _) _].
  apply (f_equal String.length) in Hs. vm_compute in Hs. discriminate.
Qed.

(** C1 (amended): for every whole-millisecond input [ms] below 2^53 (the
    range on which the program's doubles are exact; and for either value of
    the unused flag), [formatTime] clamps negative input to 0 and decomposes
    the clamped
    duration [c] into hours [c / 3600000] (non-negative, unbounded), minutes
    [(c mod 3600000) / 60000] in 0..59, seconds [(c / 1000) mod 60] in 0..59
    and hundredths [(c mod 1000) / 10] in 0..99.  Minutes, seconds and
    hundredths are rendered as two-digit zero-padded numerals; hours is
    zero-padded to at least two digits: the two-digit numeral below 100 and
    the full decimal numeral of the hour count from 100 on. *)
Theorem formatTime_decomposition (ms : Z) (includeMs : bool) :
  ms < 2 ^ 53 ->
  let c := Z.max 0 ms in
  let t := formatTime ms includeMs in
  (c = if ms <? 0 then 0 else ms)
  /\ 0 <= Spec.hoursOf c
  /\ 0 <= Spec.minutesOf c <= 59
  /\ 0 <= Spec.secondsOf c <= 59
  /\ 0 <= Spec.hundredthsOf c <= 99
  /\ hours t = Spec.atLeastTwoDigits (Spec.hoursOf c)
  /\ JS.decimalValue (hours t) = Spec.hoursOf c
  /\ (2 <= String.length (hours t))%nat
  /\ Spec.twoDigitNumeral (Spec.minutesOf c) (minutes t)
  /\ Spec.twoDigitNumeral (Spec.secondsOf c) (seconds t)
  /\ Spec.twoDigitNumeral (Spec.hundredthsOf c) (milliseconds t).
Proof.
  intros _ c t. subst t.
  assert (Hlen : (2 <= String.length (hours (formatTime ms includeMs)))%nat).
  { rewrite formatTime_parts. cbn [hours]. rewrite padStart_length. lia. }
  revert Hlen.
  rewrite formatTime_parts. cbn [hours minutes seconds milliseconds].
  rewrite hours_of_spec, minutes_of_spec, seconds_of_spec, milliseconds_of_spec.
  fold c. intros Hlen.
  assert (Hc : 0 <= c) by (subst c; lia).
  pose proof (hoursOf_nonneg c Hc) as Hh.
  pose proof (minutesOf_range c) as Hm.
  pose proof (secondsOf_range c) as Hs.
  pose proof (hundredthsOf_range c) as Hd.
  rewrite padStart_atLeastTwo in * by assumption.
  rewrite atLeastTwoDigits_value by assumption.
  rewrite !padStart_two by lia.
  split; [subst c; destruct (Z.ltb_spec ms 0); lia |].
  do 4 (split; [lia |]).
  do 3 (split; [first [reflexivity | assumption] |]).
  split; [| split]; apply twoDigits_numeral; lia.
Qed.

Lemma formatTime_decomposition_witness :
  3723450 < 2 ^ 53
  /\ hours (formatTime 3723450 true) = Spec.atLeastTwoDigits (Spec.hoursOf 3723450)
  /\ Spec.twoDigitNumeral (Spec.secondsOf 3723450) (seconds (formatTime 3723450 true)).
Proof.
  assert (Hb : 3723450 < 2 ^ 53) by reflexivity.
  destruct (formatTime_decomposition 3723450 true Hb)
    as (_ & _ & _ & _ & _ & Hh & _ & _ & _ & Hs & _).
  exact (conj Hb (conj Hh Hs)).
Defined.

(** C10: for every input [ms], the minutes, seconds and hundredths strings
    of [formatTime] have length exactly 2; the hours string has length
    exactly 2 if and only if the hour count is below 100; and for [ms] of at
    least 360000000 (one hundred hours) it is longer than two characters. *)
Theorem formatTime_lengths (ms : Z) (includeMs : bool) :
  let t := formatTime ms includeMs in
  String.length (minutes t) = 2%nat
  /\ String.length (seconds t) = 2%nat
  /\ String.length (milliseconds t) = 2%nat
  /\ (String.length (hours t) = 2%nat <-> hours_of ms < 100)
  /\ (360000000 <= ms -> (2 < String.length (hours t))%nat).
Proof.
  intros t. subst t. rewrite formatTime_parts. cbn [hours minutes seconds milliseconds].
  pose proof (minutesOf_range (Z.max 0 ms)) as Hm.
  pose proof (secondsOf_range (Z.max 0 ms)) as Hs.
  pose proof (hundredthsOf_range (Z.max 0 ms)) as Hd.
  pose proof (hoursOf_nonneg (Z.max 0 ms) ltac:(lia)) as Hh.
  rewrite <- minutes_of_spec in Hm. rewrite <- seconds_of_spec in Hs.
  rewrite <- milliseconds_of_spec in Hd. rewrite <- hours_of_spec in Hh.
  rewrite !(padStart_two (minutes_of ms)), !(padStart_two (seconds_of ms)),
    !(padStart_two (milliseconds_of ms)) by lia.
  repeat split; try reflexivity.
  - intros Hlen. destruct (Z.lt_ge_cases (hours_of ms) 100) as [|Hge]; [assumption |].
    rewrite padStart_long in Hlen by assumption.
    pose proof (toString_length_ge (hours_of ms) 2 ltac:(simpl; lia)). lia.
  - intros Hlt. rewrite padStart_two by lia. reflexivity.
  - intros Hms.
    assert (100 <= hours_of ms).
    { rewrite hours_of_spec. unfold Spec.hoursOf.
      apply Z.div_le_lower_bound; lia. }
    rewrite padStart_long by assumption.
    apply (toString_length_ge (hours_of ms) 2). simpl; lia.
Qed.

Lemma formatTime_lengths_witness :
  360000000 <= 360000000
  /\ (2 < String.length (hours (formatTime 360000000 true)))%nat.
Proof.
  split; [lia |].
  apply (proj2 (proj2 (proj2 (proj2 (formatTime_lengths 360000000 true))))). lia.
Defined.

(** * The stopwatch *)

(** The scenario of the specification: started at 0, a lap when the display
    was last refreshed at 1500 ms and another at 4200 ms. *)
Example stopwatch_two_laps :
  Stopwatch.laps
    (Stopwatch.run [(0, Stopwatch.Start); (1500, Stopwatch.Tick); (1500, Stopwatch.RecordLap);
                    (4200, Stopwatch.Tick); (4200, Stopwatch.RecordLap)]
       (Stopwatch.init (Stopwatch.boot Stopwatch.blankDom 1)))
  = [Stopwatch.mkLap 1 1500 1500; Stopwatch.mkLap 2 4200 2700].
Proof. reflexivity. Qed.

(** C7: whatever the state before (idle, running or paused, with any laps),
    after [reset] the elapsed time is 0, the lap list is empty and the
    stopwatch is not running. *)
Theorem stopwatch_reset_clears (s : Stopwatch.State) :
  Stopwatch.elapsedTime (Stopwatch.reset s) = 0
  /\ Stopwatch.laps (Stopwatch.reset s) = []
  /\ Stopwatch.isRunning (Stopwatch.reset s) = false.
Proof.
  unfold Stopwatch.reset, Stopwatch.pause.
  destruct (Stopwatch.isRunning s) eqn:E; simpl; rewrite ?E; auto.
Qed.

Lemma prevTotal_last (l : list Stopwatch.Lap) :
  Stopwatch.prevTotal l (length l)
  = match last l with Some p => Stopwatch.total p | None => 0 end.
Proof.
  rewrite last_lookup. destruct l as [|x l]; reflexivity.
Qed.

(** C5: [recordLap] changes nothing when the stopwatch is not running; when
    it is running, the lap list becomes the old one followed by exactly one
    lap, whose total is the current elapsed time, whose difference is the
    elapsed time minus the last lap's total (minus 0 when there is none) and
    whose number is the previous length plus 1; the clock fields are left as
    they were. *)
Theorem recordLap_appends_one (s : Stopwatch.State) :
  (Stopwatch.isRunning s = false -> Stopwatch.recordLap s = s)
  /\ (Stopwatch.isRunning s = true ->
      let s' := Stopwatch.recordLap s in
      exists lap,
        Stopwatch.laps s' = Stopwatch.laps s ++ [lap]
        /\ Stopwatch.total lap = Stopwatch.elapsedTime s
        /\ Stopwatch.diff lap
           = Stopwatch.elapsedTime s
             - Stopwatch.prevTotal (Stopwatch.laps s) (length (Stopwatch.laps s))
        /\ Stopwatch.number lap = Z.of_nat (length (Stopwatch.laps s)) + 1
        /\ (forall i, (i < length (Stopwatch.laps s))%nat ->
                       Stopwatch.laps s' !! i = Stopwatch.laps s !! i)
        /\ Stopwatch.elapsedTime s' = Stopwatch.elapsedTime s
        /\ Stopwatch.startTime s' = Stopwatch.startTime s
        /\ Stopwatch.isRunning s' = true).
Proof.
  split; intros Hr; unfold Stopwatch.recordLap; rewrite Hr; simpl; [reflexivity |].
  eexists. split; [reflexivity |]. simpl.
  rewrite prevTotal_last.
  repeat split; try reflexivity; try assumption.
  intros i Hi. now apply lookup_app_l.
Qed.

Lemma recordLap_appends_one_witness :
  let idle := Stopwatch.init (Stopwatch.boot Stopwatch.blankDom 1) in
  let going := Stopwatch.step 1500 Stopwatch.Tick (Stopwatch.start 0 idle) in
  Stopwatch.recordLap idle = idle
  /\ exists lap,
       Stopwatch.laps (Stopwatch.recordLap going) = Stopwatch.laps going ++ [lap]
       /\ Stopwatch.total lap = 1500.
Proof.
  intros idle going. split.
  - apply (proj1 (recordLap_appends_one idle)). reflexivity.
  - destruct (proj2 (recordLap_appends_one going) eq_refl) as (lap & Hl & Ht & _).
    exists lap. split; [exact Hl | exact Ht].
Defined.

(** C6: [start] changes nothing when the stopwatch is already running;
    otherwise it sets the start instant to [now - elapsed], sets the running
    flag and schedules the callback, keeping the elapsed time and the laps,
    so that the callback run at a later reading [now'] computes the elapsed
    time before the start plus [now' - now]: resuming continues from the
    value held while paused. *)
Theorem stopwatch_start_resumes (now : Z) (s : Stopwatch.State) :
  (Stopwatch.isRunning s = true -> Stopwatch.start now s = s)
  /\ (Stopwatch.isRunning s = false ->
      let s' := Stopwatch.start now s in
      Stopwatch.startTime s' = now - Stopwatch.elapsedTime s
      /\ Stopwatch.isRunning s' = true
      /\ Stopwatch.elapsedTime s' = Stopwatch.elapsedTime s
      /\ Stopwatch.laps s' = Stopwatch.laps s
      /\ Host.pending (Stopwatch.host s') = true
      /\ (forall now',
            Stopwatch.elapsedTime (Stopwatch.step now' Stopwatch.Tick s')
            = Stopwatch.elapsedTime s + (now' - now))
      /\ Stopwatch.elapsedTime (Stopwatch.step now Stopwatch.Tick s')
         = Stopwatch.elapsedTime s).
Proof.
  split; intros Hr; unfold Stopwatch.start; rewrite Hr; simpl; [reflexivity |].
  repeat split; try reflexivity; intros; lia.
Qed.

Lemma stopwatch_start_resumes_witness :
  let idle := Stopwatch.init (Stopwatch.boot Stopwatch.blankDom 1) in
  let going := Stopwatch.step 700 Stopwatch.Tick (Stopwatch.start 0 idle) in
  let paused := Stopwatch.pause going in
  Stopwatch.start 900 going = going
  /\ Stopwatch.startTime (Stopwatch.start 5000 paused) = 5000 - 700
  /\ Stopwatch.elapsedTime
       (Stopwatch.step 5010 Stopwatch.Tick (Stopwatch.start 5000 paused)) = 710.
Proof.
  intros idle going paused. split; [| split].
  - apply (proj1 (stopwatch_start_resumes 900 going)). reflexivity.
  - apply (proj2 (stopwatch_start_resumes 5000 paused) eq_refl).
  - destruct (proj2 (stopwatch_start_resumes 5000 paused) eq_refl)
      as (_ & _ & _ & _ & _ & Ht & _).
    rewrite Ht. reflexivity.
Defined.

(** ** The lap invariant *)
Section LapInvariant.

Import Stopwatch.

Lemma prevTotal_app_l (l : list Lap) (x : Lap) (i : nat) :
  (i <= length l)%nat -> prevTotal (l ++ [x]) i = prevTotal l i.
Proof.
  intros Hi. destruct i as [|j]; simpl; [reflexivity |].
  rewrite lookup_app_l by lia. reflexivity.
Qed.

Lemma lookup_snoc_inv (l : list Lap) (x lap : Lap) (i : nat) :
  (l ++ [x]) !! i = Some lap ->
  ((i < length l)%nat /\ l !! i = Some lap) \/ (i = length l /\ lap = x).
Proof.
  intros H. destruct (Nat.lt_ge_cases i (length l)) as [Hlt|Hge].
  - left. rewrite lookup_app_l in H by assumption. auto.
  - right. rewrite lookup_app_r in H by assumption.
    destruct (i - length l)%nat as [|k] eqn:E; simpl in H; [| discriminate].
    split; [lia | congruence].
Qed.

Lemma lapsDeltaOk_snoc (l : list Lap) (x : Lap) :
  lapsDeltaOk l -> diff x = total x - prevTotal l (length l) ->
  lapsDeltaOk (l ++ [x]).
Proof.
  intros Hl Hx i lap H.
  destruct (lookup_snoc_inv _ _ _ _ H) as [[Hi Hlap]|[-> ->]].
  - rewrite prevTotal_app_l by lia. now apply Hl.
  - rewrite prevTotal_app_l by lia. exact Hx.
Qed.

Lemma lapsNonDecreasing_snoc (l : list Lap) (x : Lap) :
  lapsNonDecreasing l ->
  (forall p, last l = Some p -> total p <= total x) ->
  lapsNonDecreasing (l ++ [x]).
Proof.
  intros Hl Hlast i j a b Hij Ha Hb.
  destruct (lookup_snoc_inv _ _ _ _ Hb) as [[Hj Hb']|[-> ->]].
  - rewrite lookup_app_l in Ha by lia. now apply (Hl i j).
  - destruct (lookup_snoc_inv _ _ _ _ Ha) as [[Hi Ha']|[_ ->]]; [| lia].
    destruct (last l) as [p|] eqn:Ep.
    + transitivity (total p); [| now apply Hlast].
      rewrite last_lookup in Ep.
      apply (Hl i (pred (length l))); [lia | assumption | assumption].
    + apply last_None in Ep. subst l. simpl in Hi. lia.
Qed.

Lemma wellScheduled_init (d : Dom) (h : nat) : wellScheduled (init (boot d h)).
Proof. split; [reflexivity | reflexivity]. Qed.

Lemma wellScheduled_pause (s : State) : wellScheduled s -> wellScheduled (pause s).
Proof.
  destruct s as [r st el id l d h]. unfold wellScheduled, pause. simpl.
  intros [Hl Hn]. destruct r; simpl; [| auto].
  split; [| reflexivity].
  destruct id as [i|]; simpl; rewrite Hl; simpl; rewrite ?Nat.eqb_refl; reflexivity.
Qed.

Lemma wellScheduled_step (now : Z) (a : Action) (s : State) :
  wellScheduled s -> wellScheduled (step now a s).
Proof.
  intros Hs. destruct a; simpl.
  - destruct s as [r st el id l d h]. unfold wellScheduled, start in *. simpl in *.
    destruct Hs as [Hl Hn]. destruct r; simpl; [auto |].
    rewrite Hl, (Hn eq_refl). split; [reflexivity | discriminate].
  - now apply wellScheduled_pause.
  - apply wellScheduled_pause in Hs. unfold reset.
    destruct (pause s) as [r st el id l d h]. exact Hs.
  - destruct s as [r st el id l d h]. unfold wellScheduled, recordLap in *. simpl in *.
    destruct r; simpl; exact Hs.
  - destruct (Host.pending (host s)); [| exact Hs].
    destruct s as [r st el id l d h]. exact Hs.
Qed.

(** The host runs the callback only while the stopwatch is running. *)
Lemma pending_running (s : State) :
  wellScheduled s -> Host.pending (host s) = true -> isRunning s = true.
Proof.
  intros [Hl Hn] Hp. destruct (isRunning s); [reflexivity |].
  unfold Host.pending in Hp. rewrite Hl, (Hn eq_refl) in Hp. discriminate.
Qed.

Lemma lapsDeltaOk_nil : lapsDeltaOk [].
Proof. intros i lap H. rewrite lookup_nil in H. discriminate. Qed.

Lemma lapsNonDecreasing_nil : lapsNonDecreasing [].
Proof. intros i j a b _ H. rewrite lookup_nil in H. discriminate. Qed.

Lemma lapsDeltaOk_step (now : Z) (a : Action) (s : State) :
  lapsDeltaOk (laps s) -> lapsDeltaOk (laps (step now a s)).
Proof.
  intros Hd. destruct a; simpl.
  - unfold start. destruct (isRunning s); simpl; assumption.
  - unfold pause. destruct (isRunning s); simpl; assumption.
  - unfold reset. simpl. apply lapsDeltaOk_nil.
  - unfold recordLap. destruct (isRunning s); simpl; [| assumption].
    apply lapsDeltaOk_snoc; [assumption |]. simpl. now rewrite prevTotal_last.
  - destruct (Host.pending (host s)); simpl; assumption.
Qed.

Lemma inStep_step (c now : Z) (a : Action) (s : State) :
  wellScheduled s -> inStep c s -> c <= now -> inStep now (step now a s).
Proof.
  intros Hw Hi Hc. destruct a; simpl.
  - destruct s as [r st el id l d h]. unfold inStep, start in *. simpl in *.
    destruct Hi as (Hnd & Hlast & Hclk). destruct r; simpl.
    + repeat split; try assumption. intros _. specialize (Hclk eq_refl). lia.
    + repeat split; try assumption. intros _. lia.
  - destruct s as [r st el id l d h]. unfold inStep, pause in *. simpl in *.
    destruct Hi as (Hnd & Hlast & Hclk). destruct r; simpl.
    + repeat split; try assumption. discriminate.
    + repeat split; try assumption. discriminate.
  - destruct s as [r st el id l d h]. unfold inStep, reset, pause in *. simpl in *.
    repeat split.
    + apply lapsNonDecreasing_nil.
    + discriminate.
    + destruct r; simpl; discriminate.
  - destruct s as [r st el id l d h]. unfold inStep, recordLap in *. simpl in *.
    destruct Hi as (Hnd & Hlast & Hclk). destruct r; simpl.
    + repeat split.
      * apply lapsNonDecreasing_snoc; assumption.
      * intros lap H. rewrite last_snoc in H. injection H as <-. simpl. lia.
      * intros _. specialize (Hclk eq_refl). lia.
    + repeat split; try assumption. discriminate.
  - destruct (Host.pending (host s)) eqn:Ep.
    + pose proof (pending_running s Hw Ep) as Er.
      destruct s as [r st el id l d h]. unfold inStep, onInterval in *. simpl in *.
      destruct Hi as (Hnd & Hlast & Hclk). specialize (Hclk Er).
      repeat split; try assumption.
      * intros lap H. specialize (Hlast lap H). lia.
      * intros _. lia.
    + destruct Hi as (Hnd & Hlast & Hclk).
      repeat split; try assumption. intros Er. specialize (Hclk Er). lia.
Qed.

Lemma run_wellScheduled (tr : list (Z * Action)) :
  forall s, wellScheduled s -> wellScheduled (run tr s).
Proof.
  induction tr as [|e tr IH]; intros s Hs; [exact Hs |].
  apply IH. now apply wellScheduled_step.
Qed.

Lemma run_lapsDeltaOk (tr : list (Z * Action)) :
  forall s, lapsDeltaOk (laps s) -> lapsDeltaOk (laps (run tr s)).
Proof.
  induction tr as [|e tr IH]; intros s Hs; [exact Hs |].
  apply IH. now apply lapsDeltaOk_step.
Qed.

Lemma run_inStep (tr : list (Z * Action)) :
  forall c s, wellScheduled s -> inStep c s -> chronological c tr = true ->
              exists c', inStep c' (run tr s).
Proof.
  induction tr as [|[now a] tr IH]; intros c s Hw Hi Hc; [now exists c |].
  simpl in Hc. apply andb_prop in Hc as [Hle Hc]. apply Z.leb_le in Hle.
  apply (IH now).
  - now apply wellScheduled_step.
  - now apply (inStep_step c).
  - exact Hc.
Qed.

(** The reachable states are the states at the end of a history. *)
Lemma run_snoc (tr : list (Z * Action)) (now : Z) (a : Action) (s : State) :
  run (tr ++ [(now, a)]) s = step now a (run tr s).
Proof. unfold run. rewrite fold_left_app. reflexivity. Qed.

Lemma reachable_run (s : State) :
  reachable s <-> exists d h tr, s = run tr (init (boot d h)).
Proof.
  split.
  - induction 1 as [d h | now a s _ (d & h & tr & ->)].
    + now exists d, h, [].
    + exists d, h, (tr ++ [(now, a)]). now rewrite run_snoc.
  - intros (d & h & tr & ->). induction tr as [|[now a] tr IH] using rev_ind.
    + apply reachable_init.
    + rewrite run_snoc. now apply reachable_step.
Qed.

Lemma inStep_init (d : Dom) (h : nat) (c : Z) : inStep c (init (boot d h)).
Proof.
  repeat split; simpl; try discriminate.
Qed.

End LapInvariant.

(** A clock set back between two refreshes of the display makes the second
    lap's total smaller than the first: the order of the totals rests on
    the clock's contract. *)
Example laps_with_clock_set_back :
  Stopwatch.laps
    (Stopwatch.run [(100, Stopwatch.Start); (200, Stopwatch.Tick); (200, Stopwatch.RecordLap);
                    (150, Stopwatch.Tick); (150, Stopwatch.RecordLap)]
       (Stopwatch.init (Stopwatch.boot Stopwatch.blankDom 1)))
  = [Stopwatch.mkLap 1 100 100; Stopwatch.mkLap 2 50 (-50)].
Proof. reflexivity. Qed.

(** C4 (as worded, refuted): the stopwatch reads [Date.now()], which can be
    set back.  Started at reading 100, refreshed and lapped at 200, then
    refreshed and lapped at 150, it holds the laps with totals 100 and 50:
    the totals are not non-decreasing after every sequence of operations. *)
Lemma lap_totals_decrease_when_clock_set_back :
  let s := Stopwatch.run
             [(100, Stopwatch.Start); (200, Stopwatch.Tick); (200, Stopwatch.RecordLap);
              (150, Stopwatch.Tick); (150, Stopwatch.RecordLap)]
             (Stopwatch.init (Stopwatch.boot Stopwatch.blankDom 1)) in
  ~ (Stopwatch.lapsDeltaOk (Stopwatch.laps s)
     /\ Stopwatch.lapsNonDecreasing (Stopwatch.laps s)).
Proof.
  intros s [_ Hnd].
  specialize (Hnd 0%nat 1%nat (Stopwatch.mkLap 1 100 100) (Stopwatch.mkLap 2 50 (-50))
                ltac:(lia) eq_refl eq_refl).
  simpl in Hnd. lia.
Qed.

(** C4 (amended): after every history of stopwatch events from the initial
    state (start, pause, reset, lap and the periodic refresh, in any order
    and number), every lap's difference equals its total minus the previous
    lap's total (minus 0 for the first); and, provided the clock readings
    never go backwards along the history, the totals never decrease along
    the lap list. *)
Theorem lap_invariant (d : Stopwatch.Dom) (h : nat) (tr : list (Z * Stopwatch.Action)) :
  let s := Stopwatch.run tr (Stopwatch.init (Stopwatch.boot d h)) in
  Stopwatch.lapsDeltaOk (Stopwatch.laps s)
  /\ (Stopwatch.clockMonotone tr = true -> Stopwatch.lapsNonDecreasing (Stopwatch.laps s)).
Proof.
  intros s. subst s. split.
  - apply run_lapsDeltaOk. apply lapsDeltaOk_nil.
  - intros Hm. destruct tr as [|e tr].
    + apply lapsNonDecreasing_nil.
    + destruct (run_inStep (e :: tr) (fst e) (Stopwatch.init (Stopwatch.boot d h)))
        as (c' & Hnd & _).
      * apply wellScheduled_init.
      * apply inStep_init.
      * simpl. rewrite Z.leb_refl. exact Hm.
      * exact Hnd.
Qed.

Lemma lap_invariant_witness :
  let tr := [(0, Stopwatch.Start); (1500, Stopwatch.Tick); (1500, Stopwatch.RecordLap);
             (2000, Stopwatch.Pause); (9000, Stopwatch.Start); (11200, Stopwatch.Tick);
             (11200, Stopwatch.RecordLap)] in
  Stopwatch.clockMonotone tr = true
  /\ Stopwatch.lapsNonDecreasing
       (Stopwatch.laps (Stopwatch.run tr (Stopwatch.init (Stopwatch.boot Stopwatch.blankDom 1)))).
Proof.
  intros tr. split; [reflexivity |].
  apply (proj2 (lap_invariant Stopwatch.blankDom 1 tr)). reflexivity.
Defined.

(** * The countdown timer *)

(** The display of a timer configured for 90 seconds, before it is started. *)
Example timer_display_90s :
  Timer.display (Timer.dom (Timer.init (Timer.boot (Timer.pageWith 0 1 30) 1)))
  = ("00", "01", "30")%string.
Proof. reflexivity. Qed.

(** ** What every reachable state satisfies *)
Section TimerFacts.

Import Timer.

Ltac timer_open s :=
  destruct s as [r rem tot id e [disp tn b1 b2 b3 [vh dh] [vm dm] [vs ds] ov] [lv fr] snd].

Ltac timer_cbn :=
  cbn [isRunning remainingTime totalTime intervalId endTime dom host sounds
       set_isRunning set_remainingTime set_totalTime set_intervalId set_endTime
       set_dom set_host set_sounds set_overlay_hidden set_field field
       display tone startBtn_disabled pauseBtn_disabled resetBtn_disabled
       hoursInput minutesInput secondsInput overlay_hidden value disabled
       updateDisplay updateButtons updateDisplayFromInputs validateInput
       showComplete hideComplete pause complete onInterval start reset
       onInput onDismiss boot init step
       Host.setInterval Host.clearInterval Host.live Host.fresh Host.pending
       negb andb orb List.filter fst snd] in *.

Lemma getInputTime_nonneg (d : Dom) : 0 <= getInputTime d.
Proof. unfold getInputTime. lia. Qed.

Lemma consistent_init (d : Dom) (h : nat) : consistent (init (boot d h)).
Proof.
  destruct d as [disp tn b1 b2 b3 [vh dh] [vm dm] [vs ds] ov].
  unfold consistent. timer_cbn.
  pose proof (getInputTime_nonneg (mkDom disp tn b1 b2 b3 (mkInputEl vh dh)
                                     (mkInputEl vm dm) (mkInputEl vs ds) ov)).
  unfold getInputTime in *. timer_cbn.
  repeat split; try reflexivity; try discriminate; lia.
Qed.

Ltac timer_goal :=
  unfold getInputTime in *; timer_cbn;
  repeat split; intros;
  try reflexivity; try discriminate; try congruence; try lia; eauto.

Lemma consistent_pause (s : State) : consistent s -> consistent (pause s).
Proof.
  timer_open s. unfold consistent. timer_cbn.
  intros (Hl & Hn & Hsome & Hh & Hm & Hsd & Hrem & Hz).
  destruct r; timer_cbn.
  - destruct (Hsome eq_refl) as [i ->]. timer_cbn. subst lv. timer_cbn.
    rewrite Nat.eqb_refl. timer_goal.
  - timer_goal.
Qed.

Lemma consistent_hideComplete (s : State) :
  consistent s -> consistent (hideComplete s).
Proof. timer_open s. unfold consistent. timer_cbn. intros H. exact H. Qed.

Lemma consistent_reset (s : State) : consistent s -> consistent (reset s).
Proof.
  intros Hs. apply consistent_pause in Hs. unfold reset.
  assert (Hp : isRunning (pause s) = false).
  { unfold pause. destruct (isRunning s) eqn:E; timer_cbn; [reflexivity | exact E]. }
  revert Hs Hp. generalize (pause s) as p. intros p. timer_open p.
  unfold consistent. timer_cbn.
  intros (Hl & Hn & Hsome & Hh & Hm & Hsd & Hrem & Hz) ->.
  timer_goal.
Qed.

Lemma consistent_start (now : Z) (s : State) :
  consistent s -> consistent (start now s).
Proof.
  timer_open s. unfold consistent. timer_cbn.
  intros (Hl & Hn & Hsome & Hh & Hm & Hsd & Hrem & Hz).
  destruct r; timer_cbn; [timer_goal |].
  specialize (Hn eq_refl). subst id. timer_cbn. subst lv.
  destruct (Z.eqb_spec rem 0) as [-> | Hne]; timer_cbn.
  - match goal with |- context [?g <=? 0] => destruct (Z.leb_spec g 0) end;
      timer_cbn; timer_goal.
  - destruct (Z.leb_spec rem 0); timer_cbn; timer_goal.
Qed.

Lemma consistent_input (f : Field) (v : option Z) (s : State) :
  consistent s -> consistent (step 0 (Input f v) s).
Proof.
  timer_open s. unfold consistent. timer_cbn.
  intros (Hl & Hn & Hsome & Hh & Hm & Hsd & Hrem & Hz). subst dh dm ds.
  destruct f; timer_cbn; destruct r; timer_cbn; timer_goal.
Qed.

Lemma consistent_tick (now : Z) (s : State) :
  consistent s -> consistent (step now Tick s).
Proof.
  timer_open s. unfold consistent. timer_cbn.
  intros (Hl & Hn & Hsome & Hh & Hm & Hsd & Hrem & Hz).
  destruct r.
  - destruct (Hsome eq_refl) as [i ->]. subst lv. timer_cbn.
    unfold onInterval. timer_cbn.
    destruct (Z.leb_spec (Z.max 0 (e - now)) 0); timer_cbn.
    + rewrite Nat.eqb_refl. timer_goal.
    + timer_goal.
  - specialize (Hn eq_refl). subst id. timer_cbn. subst lv. timer_cbn. timer_goal.
Qed.

Lemma consistent_step (now : Z) (a : Action) (s : State) :
  consistent s -> consistent (step now a s).
Proof.
  intros Hs. destruct a.
  - now apply consistent_start.
  - now apply consistent_pause.
  - now apply consistent_reset.
  - apply consistent_reset. now apply consistent_hideComplete.
  - exact (consistent_input f v s Hs).
  - now apply consistent_tick.
Qed.

Lemma reachable_consistent (s : State) : reachable s -> consistent s.
Proof.
  induction 1 as [d h | now a s _ IH].
  - apply consistent_init.
  - now apply consistent_step.
Qed.

(** ** Starting *)

Lemma start_runs (now0 : Z) (s : State) :
  isRunning s = false -> 0 < runLength s ->
  let s1 := start now0 s in
  isRunning s1 = true
  /\ endTime s1 = now0 + runLength s
  /\ remainingTime s1 = runLength s
  /\ sounds s1 = sounds s
  /\ Host.pending (host s1) = true.
Proof.
  intros Hr Hpos s1. subst s1. revert Hr Hpos. timer_open s.
  unfold runLength, start. timer_cbn. intros -> Hpos. timer_cbn.
  destruct (Z.eqb_spec rem 0) as [-> | Hne]; timer_cbn.
  - match goal with |- context [?g <=? 0] => destruct (Z.leb_spec g 0) as [Hle|Hgt] end.
    + exfalso. unfold getInputTime in *. timer_cbn. lia.
    + timer_cbn. repeat split; reflexivity.
  - destruct (Z.leb_spec rem 0); [lia |]. timer_cbn. repeat split; reflexivity.
Qed.

(** A timer that is not running, in a reachable state with a positive
    configured duration, has a positive run length; after [init], [reset] or
    completion the run length is the configured duration. *)
Lemma runLength_pos (s : State) :
  consistent s -> 0 < getInputTime (dom s) -> 0 < runLength s.
Proof.
  intros (_ & _ & _ & _ & _ & _ & Hrem & _) Hpos. unfold runLength.
  destruct (Z.eqb_spec (remainingTime s) 0); lia.
Qed.

Lemma runLength_init (d : Dom) (h : nat) :
  runLength (init (boot d h)) = getInputTime (dom (init (boot d h))).
Proof.
  destruct d as [disp tn b1 b2 b3 [vh dh] [vm dm] [vs ds] ov].
  unfold runLength. timer_cbn.
  match goal with |- context [?g =? 0] => destruct (Z.eqb_spec g 0) as [E|E] end;
    unfold getInputTime in *; timer_cbn; lia.
Qed.

Lemma runLength_reset (s : State) :
  runLength (reset s) = getInputTime (dom (reset s)).
Proof.
  unfold reset. generalize (pause s) as p. intros p. timer_open p.
  unfold runLength. timer_cbn.
  match goal with |- context [?g =? 0] => destruct (Z.eqb_spec g 0) as [E|E] end;
    unfold getInputTime in *; timer_cbn; lia.
Qed.

Lemma runLength_zero (s : State) :
  remainingTime s = 0 -> runLength s = getInputTime (dom s).
Proof. intros H. unfold runLength. now rewrite H. Qed.

(** ** One run of the callback *)

Lemma tick_before (now : Z) (s : State) :
  consistent s -> isRunning s = true -> now < endTime s ->
  let s' := step now Tick s in
  isRunning s' = true
  /\ endTime s' = endTime s
  /\ remainingTime s' = endTime s - now
  /\ sounds s' = sounds s.
Proof.
  intros Hc Hr Hlt s'. subst s'. revert Hc Hr Hlt.
  timer_open s. unfold consistent. timer_cbn.
  intros (Hl & Hn & Hsome & _) -> Hlt.
  destruct (Hsome eq_refl) as [i ->]. subst lv. timer_cbn.
  unfold onInterval. timer_cbn.
  destruct (Z.leb_spec (Z.max 0 (e - now)) 0); [lia |].
  timer_cbn. repeat split; try reflexivity. lia.
Qed.

Lemma tick_at_end (now : Z) (s : State) :
  consistent s -> isRunning s = true -> endTime s <= now ->
  let s' := step now Tick s in
  isRunning s' = false
  /\ remainingTime s' = 0
  /\ sounds s' = sounds s ++ completionBeeps
  /\ overlay_hidden (dom s') = false
  /\ intervalId s' = None
  /\ Host.pending (host s') = false.
Proof.
  intros Hc Hr Hle s'. subst s'. revert Hc Hr Hle.
  timer_open s. unfold consistent. timer_cbn.
  intros (Hl & Hn & Hsome & _) -> Hle.
  destruct (Hsome eq_refl) as [i ->]. subst lv. timer_cbn.
  unfold onInterval. timer_cbn.
  destruct (Z.leb_spec (Z.max 0 (e - now)) 0); [| lia].
  timer_cbn. rewrite Nat.eqb_refl. timer_cbn. repeat split; reflexivity.
Qed.

Lemma tick_idle (now : Z) (s : State) :
  Host.pending (host s) = false -> step now Tick s = s.
Proof. intros H. cbn [step]. now rewrite H. Qed.

(** ** An uninterrupted run *)

Lemma afterTicks_S (clock : nat -> Z) (m : nat) (s : State) :
  afterTicks clock (S m) s = step (clock m) Tick (afterTicks clock m s).
Proof.
  unfold afterTicks, ticks. rewrite seq_S, List.map_app, fold_left_app. reflexivity.
Qed.

Lemma run_before (clock : nat -> Z) (s : State) (m : nat) :
  consistent s -> isRunning s = true -> 0 < remainingTime s ->
  (forall j, (j < m)%nat -> clock j < endTime s) ->
  let sm := afterTicks clock m s in
  consistent sm
  /\ isRunning sm = true
  /\ endTime sm = endTime s
  /\ 0 < remainingTime sm
  /\ sounds sm = sounds s.
Proof.
  intros Hc Hr Hpos. induction m as [|m IH]; intros Hclk sm; subst sm.
  - exact (conj Hc (conj Hr (conj eq_refl (conj Hpos eq_refl)))).
  - destruct IH as (Hc' & Hr' & He' & Hp' & Hs'); [intros j Hj; apply Hclk; lia |].
    rewrite afterTicks_S.
    assert (Hlt : clock m < endTime (afterTicks clock m s))
      by (rewrite He'; apply Hclk; lia).
    destruct (tick_before (clock m) _ Hc' Hr' Hlt) as (Hr2 & He2 & Hrem2 & Hs2).
    split; [now apply consistent_tick |].
    split; [exact Hr2 |].
    split; [congruence |].
    split; [lia | congruence].
Qed.

Lemma run_after (clock : nat -> Z) (s : State) (n : nat) :
  Host.pending (host (afterTicks clock n s)) = false ->
  forall m, (n <= m)%nat -> afterTicks clock m s = afterTicks clock n s.
Proof.
  intros Hp m Hm. induction Hm as [|m Hm IH]; [reflexivity |].
  rewrite afterTicks_S, IH. now apply tick_idle.
Qed.

(** The first index at which a decidable property holds. *)
Lemma first_index (P : nat -> Prop) (dec : forall n, {P n} + {~ P n}) (k : nat) :
  P k -> exists n, P n /\ forall j, (j < n)%nat -> ~ P j.
Proof.
  induction k as [k IH] using lt_wf_ind. intros Hk.
  destruct (List.Forall_dec (fun j => ~ P j)
              (fun j => match dec j with left p => right (fun np => np p) | right np => left np end)
              (seq 0 k)) as [Hall | Hsome].
  - exists k. split; [assumption |]. intros j Hj.
    rewrite List.Forall_forall in Hall. apply Hall. apply in_seq. lia.
  - apply List.Exists_Forall_neg in Hsome;
      [| intros j; destruct (dec j); [right | left]; tauto].
    apply List.Exists_exists in Hsome as (j & Hin & Hj).
    apply in_seq in Hin. apply (IH j); [lia |].
    destruct (dec j); tauto.
Qed.

(** A running timer whose clock reaches the end instant at some callback
    completes at the first such callback and stays completed. *)
Lemma uninterrupted_run (clock : nat -> Z) (s : State) (k : nat) :
  consistent s -> isRunning s = true -> 0 < remainingTime s ->
  endTime s <= clock k ->
  exists n,
    (0 < n <= S k)%nat
    /\ (forall m, (m < n)%nat ->
                  isRunning (afterTicks clock m s) = true
                  /\ 0 < remainingTime (afterTicks clock m s)
                  /\ sounds (afterTicks clock m s) = sounds s)
    /\ (forall m, (n <= m)%nat ->
                  isRunning (afterTicks clock m s) = false
                  /\ remainingTime (afterTicks clock m s) = 0
                  /\ sounds (afterTicks clock m s) = sounds s ++ completionBeeps
                  /\ overlay_hidden (dom (afterTicks clock m s)) = false
                  /\ intervalId (afterTicks clock m s) = None
                  /\ Host.pending (host (afterTicks clock m s)) = false).
Proof.
  intros Hc Hr Hpos Hk.
  destruct (first_index (fun j => endTime s <= clock j)
              (fun j => Z_le_dec (endTime s) (clock j)) k Hk) as (n0 & Hn0 & Hfirst).
  assert (Hbefore : forall j, (j < n0)%nat -> clock j < endTime s).
  { intros j Hj. specialize (Hfirst j Hj). lia. }
  assert (n0 <= k)%nat.
  { destruct (Nat.le_gt_cases n0 k) as [|Hgt]; [assumption |].
    specialize (Hfirst k Hgt). contradiction. }
  exists (S n0). split; [lia |]. split.
  - intros m Hm.
    destruct (run_before clock s m Hc Hr Hpos) as (_ & Hr' & _ & Hp' & Hs').
    + intros j Hj. apply Hbefore. lia.
    + auto.
  - destruct (run_before clock s n0 Hc Hr Hpos Hbefore) as (Hc' & Hr' & He' & _ & Hs').
    assert (Hend : endTime (afterTicks clock n0 s) <= clock n0) by (rewrite He'; exact Hn0).
    pose proof (tick_at_end (clock n0) _ Hc' Hr' Hend) as Hdone.
    rewrite <- afterTicks_S in Hdone. cbv zeta in Hdone.
    destruct Hdone as (H1 & H2 & H3 & H4 & H5 & H6).
    intros m Hm. rewrite (run_after clock s (S n0) H6 m Hm).
    rewrite Hs' in H3. auto 10.
Qed.

(** ** The claims about the timer *)

(** The scenario of the specification: a timer configured for 5 seconds and
    started at 0 is, after the callbacks at 100, 200, ..., 5000 ms, complete
    at zero, with the three beeps requested once. *)
Example timer_five_seconds :
  let s := afterTicks (fun j => 100 * (Z.of_nat j + 1)) 50
             (start 0 (init (boot (pageWith 0 0 5) 1))) in
  isRunning s = false /\ remainingTime s = 0 /\ sounds s = completionBeeps
  /\ overlay_hidden (dom s) = false.
Proof. vm_compute. auto. Qed.

(** C2: take a timer that is not running, with a configured duration
    [D > 0]; start it when the clock reads [now0] and let nothing happen but
    the periodic callback, the [j]-th one running at clock reading
    [clock j].  The run counts down [runLength s], which is [D] for a timer
    standing at its configured duration or at zero.  If the clock reaches
    the end instant [now0 + runLength s] at some callback, there is a first
    callback [n] such that before it the timer is running with time
    remaining and no completion signalled, and from it on (however many more
    callbacks the host attempts) the timer is paused with [remaining = 0],
    the overlay shown, no interval left, and the three beeps (at 0, 300 and
    600 ms) requested exactly once. *)
Theorem timer_completes_once (now0 : Z) (clock : nat -> Z) (s : State) :
  reachable s -> isRunning s = false -> 0 < getInputTime (dom s) ->
  (exists k, now0 + runLength s <= clock k) ->
  exists n,
    (0 < n)%nat
    /\ (forall m, (m < n)%nat ->
                  let sm := afterTicks clock m (start now0 s) in
                  isRunning sm = true /\ 0 < remainingTime sm
                  /\ sounds sm = sounds s)
    /\ (forall m, (n <= m)%nat ->
                  let sm := afterTicks clock m (start now0 s) in
                  isRunning sm = false
                  /\ remainingTime sm = 0
                  /\ sounds sm = sounds s ++ completionBeeps
                  /\ overlay_hidden (dom sm) = false
                  /\ intervalId sm = None
                  /\ Host.pending (host sm) = false).
Proof.
  intros Hreach Hr Hpos [k Hk].
  pose proof (reachable_consistent s Hreach) as Hc.
  pose proof (runLength_pos s Hc Hpos) as HR.
  destruct (start_runs now0 s Hr HR) as (Hr1 & He1 & Hrem1 & Hs1 & _).
  destruct (uninterrupted_run clock (start now0 s) k) as (n & Hn & Hb & Ha).
  - now apply consistent_start.
  - exact Hr1.
  - lia.
  - lia.
  - exists n. split; [lia |]. split.
    + intros m Hm. cbv zeta. rewrite <- Hs1. now apply Hb.
    + intros m Hm. cbv zeta. rewrite <- Hs1. now apply Ha.
Qed.

Lemma timer_completes_once_witness :
  let s := init (boot (pageWith 0 0 5) 1) in
  let clock := fun j => 100 * (Z.of_nat j + 1) in
  (isRunning s = false /\ 0 < getInputTime (dom s)
   /\ runLength s = 5000 /\ 0 + runLength s <= clock 49%nat)
  /\ exists n, forall m, (n <= m)%nat ->
        remainingTime (afterTicks clock m (start 0 s)) = 0
        /\ sounds (afterTicks clock m (start 0 s)) = sounds s ++ completionBeeps.
Proof.
  intros s clock. split.
  - split; [reflexivity | split; [reflexivity | split; [reflexivity | vm_compute; discriminate]]].
  - assert (Hk : exists k, 0 + runLength s <= clock k)
      by (exists 49%nat; vm_compute; discriminate).
    destruct (timer_completes_once 0 clock s (reachable_init _ _) eq_refl eq_refl Hk)
      as (n & _ & _ & Ha).
    exists n. intros m Hm. destruct (Ha m Hm) as (_ & H2 & H3 & _). split; assumption.
Defined.

(** With a host that runs the [j]-th callback no earlier than [100 * (j+1)]
    milliseconds after the start, the clock does reach the end instant: the
    run completes within [runLength s / 100 + 1] callbacks. *)
Lemma timer_completes_at_cadence (now0 : Z) (clock : nat -> Z) (s : State) :
  reachable s -> isRunning s = false -> 0 < getInputTime (dom s) ->
  (forall j, now0 + 100 * (Z.of_nat j + 1) <= clock j) ->
  exists n,
    (0 < n <= S (Z.to_nat (runLength s / 100)))%nat
    /\ forall m, (n <= m)%nat ->
         let sm := afterTicks clock m (start now0 s) in
         isRunning sm = false /\ remainingTime sm = 0
         /\ sounds sm = sounds s ++ completionBeeps.
Proof.
  intros Hreach Hr Hpos Hcad.
  pose proof (reachable_consistent s Hreach) as Hc.
  pose proof (runLength_pos s Hc Hpos) as HR.
  destruct (start_runs now0 s Hr HR) as (Hr1 & He1 & Hrem1 & Hs1 & _).
  set (D := runLength s) in *.
  destruct (uninterrupted_run clock (start now0 s) (Z.to_nat (D / 100)))
    as (n & Hn & _ & Ha).
  - now apply consistent_start.
  - exact Hr1.
  - lia.
  - rewrite He1. specialize (Hcad (Z.to_nat (D / 100))).
    rewrite Z2Nat.id in Hcad by (apply Z.div_pos; lia).
    pose proof (Z.div_mod D 100 ltac:(lia)).
    pose proof (Z.mod_pos_bound D 100 ltac:(lia)). lia.
  - exists n. split; [exact Hn |]. intros m Hm. cbv zeta. rewrite <- Hs1.
    destruct (Ha m Hm) as (H1 & H2 & H3 & _). auto.
Qed.

(** C3: in every reachable state whose configured duration is zero (it is
    never negative), [start] changes nothing at all: the timer stays not
    running and no periodic callback is scheduled. *)
Theorem timer_start_declines (now : Z) (s : State) :
  reachable s -> getInputTime (dom s) <= 0 ->
  start now s = s
  /\ isRunning (start now s) = false
  /\ intervalId (start now s) = None
  /\ Host.pending (host (start now s)) = false.
Proof.
  intros Hreach Hz. pose proof (reachable_consistent s Hreach) as Hc.
  assert (Heq : start now s = s).
  { revert Hc Hz. timer_open s. unfold consistent. timer_cbn.
    intros (_ & _ & _ & _ & _ & _ & _ & Hzero) Hz.
    destruct (Hzero Hz) as (-> & -> & ->).
    unfold start. timer_cbn. rewrite Z.eqb_refl. timer_cbn.
    match goal with |- context [?g <=? 0] => destruct (Z.leb_spec g 0) as [Hle|Hgt] end;
      [| lia].
    unfold set_totalTime, set_remainingTime. timer_cbn. f_equal; unfold getInputTime in *; timer_cbn; lia. }
  rewrite Heq. destruct Hc as (Hl & Hn & _ & _ & _ & _ & _ & Hzero).
  destruct (Hzero Hz) as (Hr & _ & _).
  repeat split; [exact Hr | now apply Hn |].
  unfold Host.pending. rewrite Hl, (Hn Hr). reflexivity.
Qed.

Lemma timer_start_declines_witness :
  let s := init (boot (pageWith 0 0 0) 1) in
  getInputTime (dom s) <= 0
  /\ start 1000 s = s
  /\ Host.pending (host (start 1000 s)) = false.
Proof.
  intros s.
  assert (Hz : getInputTime (dom s) <= 0) by (vm_compute; discriminate).
  destruct (timer_start_declines 1000 s (reachable_init _ _) Hz) as (H1 & _ & _ & H4).
  exact (conj Hz (conj H1 H4)).
Defined.

(** C8: in every reachable state of the timer, that is after [init] and
    after every operation since (start, pause, reset, dismiss, an edit of a
    field, and every run of the periodic callback, completion included), the
    remaining time is not negative. *)
Theorem timer_remaining_nonneg (s : State) :
  reachable s -> 0 <= remainingTime s.
Proof.
  intros Hreach. destruct (reachable_consistent s Hreach) as (_ & _ & _ & _ & _ & _ & H & _).
  exact H.
Qed.

Lemma timer_remaining_nonneg_witness :
  0 <= remainingTime
         (step 2600 Tick (step 100 Start (init (boot (pageWith 0 0 5) 1)))).
Proof.
  apply timer_remaining_nonneg. do 2 apply reachable_step. apply reachable_init.
Defined.

End TimerFacts.

(** * Pausing twice *)

(** C9: for every state of the stopwatch and every state of the timer,
    [pause] applied twice gives exactly the state [pause] gives once: the
    second call changes no field (and, [pause] being a total function, it
    raises nothing). *)
Theorem pause_twice (s : Stopwatch.State) (t : Timer.State) :
  Stopwatch.pause (Stopwatch.pause s) = Stopwatch.pause s
  /\ Timer.pause (Timer.pause t) = Timer.pause t.
Proof.
  split.
  - unfold Stopwatch.pause. destruct (Stopwatch.isRunning s) eqn:E; simpl.
    + reflexivity.
    + now rewrite E.
  - unfold Timer.pause. destruct (Timer.isRunning t) eqn:E; simpl.
    + reflexivity.
    + now rewrite E.
Qed.

(** * Further properties of [formatTime] *)
Section FormatTimeMore.

Lemma formatTime_values (ms : Z) (b : bool) :
  JS.decimalValue (hours (formatTime ms b)) = hours_of ms
  /\ JS.decimalValue (minutes (formatTime ms b)) = minutes_of ms
  /\ JS.decimalValue (seconds (formatTime ms b)) = seconds_of ms
  /\ JS.decimalValue (milliseconds (formatTime ms b)) = milliseconds_of ms.
Proof.
  rewrite formatTime_parts. cbn [hours minutes seconds milliseconds].
  pose proof (minutesOf_range (Z.max 0 ms)) as Hm.
  pose proof (secondsOf_range (Z.max 0 ms)) as Hs.
  pose proof (hundredthsOf_range (Z.max 0 ms)) as Hd.
  pose proof (hoursOf_nonneg (Z.max 0 ms) ltac:(lia)) as Hh.
  rewrite <- minutes_of_spec in Hm. rewrite <- seconds_of_spec in Hs.
  rewrite <- milliseconds_of_spec in Hd. rewrite <- hours_of_spec in Hh.
  rewrite padStart_atLeastTwo, atLeastTwoDigits_value by assumption.
  rewrite !padStart_two, !twoDigits_value by lia.
  repeat split; reflexivity.
Qed.

(** The components add up to the clamped duration without its last digit. *)
Lemma components_sum (ms : Z) :
  hours_of ms * 3600000 + minutes_of ms * 60000 + seconds_of ms * 1000
  + milliseconds_of ms * 10
  = Z.max 0 ms / 10 * 10.
Proof.
  rewrite hours_of_spec, minutes_of_spec, seconds_of_spec, milliseconds_of_spec.
  unfold Spec.hoursOf, Spec.minutesOf, Spec.secondsOf, Spec.hundredthsOf.
  set (c := Z.max 0 ms). assert (Hc : 0 <= c) by (subst c; lia).
  pose proof (Z.div_mod c 3600000 ltac:(lia)).
  pose proof (Z.mod_pos_bound c 3600000 ltac:(lia)).
  pose proof (Z.div_mod (c mod 3600000) 60000 ltac:(lia)).
  pose proof (Z.mod_pos_bound (c mod 3600000) 60000 ltac:(lia)).
  pose proof (Z.div_mod c 1000 ltac:(lia)).
  pose proof (Z.mod_pos_bound c 1000 ltac:(lia)).
  pose proof (Z.div_mod (c / 1000) 60 ltac:(lia)).
  pose proof (Z.mod_pos_bound (c / 1000) 60 ltac:(lia)).
  pose proof (Z.div_mod (c mod 1000) 10 ltac:(lia)).
  pose proof (Z.mod_pos_bound (c mod 1000) 10 ltac:(lia)).
  pose proof (Z.div_mod c 10 ltac:(lia)).
  pose proof (Z.mod_pos_bound c 10 ltac:(lia)).
  lia.
Qed.

(** Every component is a function of the duration in hundredths. *)
Lemma components_of_hundredths (ms : Z) :
  let q := Z.max 0 ms / 10 in
  hours_of ms = q / 360000
  /\ minutes_of ms = Z.rem (q / 100) 3600 / 60
  /\ seconds_of ms = Z.rem (q / 100) 60
  /\ milliseconds_of ms = q mod 100.
Proof.
  intros q. subst q.
  unfold hours_of, minutes_of, seconds_of, milliseconds_of, totalSeconds_of, totalMs_of.
  set (c := Z.max 0 ms). assert (Hc : 0 <= c) by (subst c; lia).
  rewrite !Z.div_div by lia. change (10 * 100) with 1000.
  change (1000 * 3600) with 3600000. change (10 * 360000) with 3600000.
  repeat split; try reflexivity.
  rewrite Z.rem_mod_nonneg by lia.
  change 1000 with (10 * 100). rewrite Z.rem_mul_r by lia.
  rewrite (Z.add_comm (c mod 10)), (Z.mul_comm 10).
  rewrite Z.div_add_l by lia.
  rewrite (Z.div_small (c mod 10) 10) by (apply Z.mod_pos_bound; lia). lia.
Qed.

End FormatTimeMore.

(** X1: for a whole-millisecond input below 2^53, the four strings of
    [formatTime], read back as decimal numbers and weighted by 3600000,
    60000, 1000 and 10, add up to the clamped duration rounded down to a
    multiple of 10: the formatting loses the last digit of the milliseconds
    and nothing else. *)
Theorem formatTime_roundtrip (ms : Z) (includeMs : bool) :
  ms < 2 ^ 53 ->
  let t := formatTime ms includeMs in
  JS.decimalValue (hours t) * 3600000
  + JS.decimalValue (minutes t) * 60000
  + JS.decimalValue (seconds t) * 1000
  + JS.decimalValue (milliseconds t) * 10
  = Z.max 0 ms / 10 * 10.
Proof.
  intros _ t. subst t.
  destruct (formatTime_values ms includeMs) as (-> & -> & -> & ->).
  apply components_sum.
Qed.

Lemma formatTime_roundtrip_witness :
  3723456 < 2 ^ 53
  /\ JS.decimalValue (hours (formatTime 3723456 true)) * 3600000
     + JS.decimalValue (minutes (formatTime 3723456 true)) * 60000
     + JS.decimalValue (seconds (formatTime 3723456 true)) * 1000
     + JS.decimalValue (milliseconds (formatTime 3723456 true)) * 10
     = 3723450.
Proof.
  assert (Hb : 3723456 < 2 ^ 53) by reflexivity.
  exact (conj Hb (formatTime_roundtrip 3723456 true Hb)).
Defined.

(** X2: two whole-millisecond durations below 2^53 are formatted alike
    exactly when, clamped at zero, they agree in whole hundredths of a
    second. *)
Theorem formatTime_same_display (a b : Z) (fa fb : bool) :
  a < 2 ^ 53 -> b < 2 ^ 53 ->
  (formatTime a fa = formatTime b fb <-> Z.max 0 a / 10 = Z.max 0 b / 10).
Proof.
  intros _ _. split.
  - intros H. pose proof (components_sum a) as Ha. pose proof (components_sum b) as Hb.
    destruct (formatTime_values a fa) as (A1 & A2 & A3 & A4).
    destruct (formatTime_values b fb) as (B1 & B2 & B3 & B4).
    rewrite H in A1, A2, A3, A4.
    assert (hours_of a = hours_of b) by congruence.
    assert (minutes_of a = minutes_of b) by congruence.
    assert (seconds_of a = seconds_of b) by congruence.
    assert (milliseconds_of a = milliseconds_of b) by congruence.
    lia.
  - intros H. rewrite !formatTime_parts.
    destruct (components_of_hundredths a) as (-> & -> & -> & ->).
    destruct (components_of_hundredths b) as (-> & -> & -> & ->).
    now rewrite H.
Qed.

Lemma formatTime_same_display_witness :
  (61234 < 2 ^ 53 /\ 61239 < 2 ^ 53 /\ 61240 < 2 ^ 53)
  /\ formatTime 61234 true = formatTime 61239 false
  /\ formatTime 61239 true <> formatTime 61240 true.
Proof.
  assert (H1 : 61234 < 2 ^ 53) by reflexivity.
  assert (H2 : 61239 < 2 ^ 53) by reflexivity.
  assert (H3 : 61240 < 2 ^ 53) by reflexivity.
  split; [exact (conj H1 (conj H2 H3)) |]. split.
  - apply (proj2 (formatTime_same_display 61234 61239 true false H1 H2)). reflexivity.
  - intros E. apply (proj1 (formatTime_same_display 61239 61240 true true H2 H3)) in E.
    vm_compute in E. discriminate.
Defined.

(** * Further properties of the stopwatch *)
Section StopwatchMore.

Import Stopwatch.

Ltac sw_open s := destruct s as [r st el id l d [lv fr]].

Lemma oneInterval_step (now : Z) (a : Action) (s : State) :
  oneInterval s -> oneInterval (step now a s).
Proof.
  sw_open s. unfold oneInterval. simpl. intros [Hrun Hidle].
  destruct a; simpl.
  - unfold start. simpl. destruct r; simpl; [auto |].
    destruct (Hidle eq_refl) as [-> ->]. split; [eauto | discriminate].
  - unfold pause. simpl. destruct r; simpl; [| auto].
    destruct (Hrun eq_refl) as (i & -> & ->). simpl. rewrite Nat.eqb_refl. simpl.
    split; [discriminate | auto].
  - unfold reset, pause. simpl. destruct r; simpl.
    + destruct (Hrun eq_refl) as (i & -> & ->). simpl. rewrite Nat.eqb_refl. simpl.
      split; [discriminate | auto].
    + auto.
  - unfold recordLap. simpl. destruct r; simpl; auto.
  - destruct (Host.pending _); simpl; auto.
Qed.

Lemma reachable_oneInterval (s : State) : reachable s -> oneInterval s.
Proof.
  induction 1 as [d h | now a s _ IH].
  - split; simpl; [discriminate | auto].
  - now apply oneInterval_step.
Qed.

Lemma oneInterval_wellScheduled (s : State) : oneInterval s -> wellScheduled s.
Proof.
  intros [Hrun Hidle]. unfold wellScheduled. destruct (isRunning s).
  - destruct (Hrun eq_refl) as (i & -> & ->). split; [reflexivity | discriminate].
  - destruct (Hidle eq_refl) as [-> ->]. split; reflexivity.
Qed.

Lemma rendered_step (now : Z) (a : Action) (s : State) :
  oneInterval s -> dom s = rendered s -> dom (step now a s) = rendered (step now a s).
Proof.
  sw_open s. unfold oneInterval, rendered. simpl. intros [Hrun Hidle] ->.
  destruct a; simpl.
  - unfold start. simpl. destruct r; simpl; reflexivity.
  - unfold pause. simpl. destruct r; simpl; reflexivity.
  - unfold reset, pause. simpl. destruct r; simpl; reflexivity.
  - unfold recordLap. simpl. destruct r; simpl; reflexivity.
  - destruct r.
    + destruct (Hrun eq_refl) as (i & _ & ->). simpl. reflexivity.
    + destruct (Hidle eq_refl) as [_ ->]. simpl. reflexivity.
Qed.

Lemma numbers_step (now : Z) (a : Action) (s : State) :
  (forall i lap, laps s !! i = Some lap -> number lap = Z.of_nat i + 1) ->
  forall i lap, laps (step now a s) !! i = Some lap -> number lap = Z.of_nat i + 1.
Proof.
  intros Hn. destruct a; simpl.
  - unfold start. destruct (isRunning s); simpl; assumption.
  - unfold pause. destruct (isRunning s); simpl; assumption.
  - unfold reset. simpl. intros i lap H. rewrite lookup_nil in H. discriminate.
  - unfold recordLap. destruct (isRunning s); simpl; [| assumption].
    intros i lap H. apply lookup_snoc_inv in H as [[_ H] | [-> ->]]; [now apply Hn |].
    reflexivity.
  - destruct (Host.pending (host s)); simpl; assumption.
Qed.

Lemma sumDiffs_snoc (l : list Lap) (x : Lap) :
  sumDiffs (l ++ [x]) = sumDiffs l + diff x.
Proof.
  unfold sumDiffs. induction l as [|y l IH]; simpl; [lia |].
  change (fold_right (fun lap acc => diff lap + acc) 0 (l ++ [x]))
    with (sumDiffs (l ++ [x])) in *.
  unfold sumDiffs in *. rewrite IH. lia.
Qed.

Lemma lapsDeltaOk_prefix (l : list Lap) (x : Lap) :
  lapsDeltaOk (l ++ [x]) ->
  lapsDeltaOk l /\ diff x = total x - prevTotal l (length l).
Proof.
  intros H. split.
  - intros i lap Hi. pose proof (lookup_lt_Some _ _ _ Hi) as Hlt.
    rewrite <- (prevTotal_app_l l x i) by lia.
    apply H. now rewrite lookup_app_l.
  - rewrite <- (prevTotal_app_l l x (length l)) by lia.
    apply H. rewrite lookup_app_r by lia. now rewrite Nat.sub_diag.
Qed.

Lemma sumDiffs_telescopes (l : list Lap) :
  lapsDeltaOk l -> sumDiffs l = prevTotal l (length l).
Proof.
  induction l as [|x l IH] using rev_ind; intros H; [reflexivity |].
  apply lapsDeltaOk_prefix in H as [Hl Hx].
  rewrite sumDiffs_snoc, IH, Hx by assumption.
  rewrite length_app. simpl. replace (length l + 1)%nat with (S (length l)) by lia.
  simpl. rewrite lookup_app_r by lia. rewrite Nat.sub_diag. simpl. lia.
Qed.

Lemma reachable_lapsDeltaOk (s : State) : reachable s -> lapsDeltaOk (laps s).
Proof.
  induction 1 as [d h | now a s _ IH].
  - apply lapsDeltaOk_nil.
  - now apply lapsDeltaOk_step.
Qed.

(** ** Histories with a monotonic clock *)

Lemma chronological_snoc (tr : list (Z * Action)) :
  forall c e,
    chronological c (tr ++ [e])
    = chronological c tr && (lastReading c tr <=? fst e).
Proof.
  induction tr as [|x tr IH]; intros c e; simpl.
  - now rewrite andb_true_r.
  - rewrite IH. unfold lastReading. simpl. now rewrite andb_assoc.
Qed.

Lemma run_inStep_last (tr : list (Z * Action)) :
  forall c s, wellScheduled s -> inStep c s -> chronological c tr = true ->
              inStep (lastReading c tr) (run tr s).
Proof.
  induction tr as [|[now a] tr IH]; intros c s Hw Hi Hc; [exact Hi |].
  simpl in Hc. apply andb_prop in Hc as [Hle Hc]. apply Z.leb_le in Hle.
  apply (IH now).
  - now apply wellScheduled_step.
  - now apply (inStep_step c).
  - exact Hc.
Qed.

Lemma nonneg_step (c now : Z) (a : Action) (s : State) :
  wellScheduled s -> inStep c s -> c <= now ->
  0 <= elapsedTime s ->
  (forall i lap, laps s !! i = Some lap -> 0 <= total lap) ->
  0 <= elapsedTime (step now a s)
  /\ (forall i lap, laps (step now a s) !! i = Some lap -> 0 <= total lap).
Proof.
  intros Hw (_ & _ & Hclk) Hc He Hl. destruct a; simpl.
  - unfold start. destruct (isRunning s); simpl; auto.
  - unfold pause. destruct (isRunning s); simpl; auto.
  - unfold reset. simpl. split; [lia |].
    intros i lap H. rewrite lookup_nil in H. discriminate.
  - unfold recordLap. destruct (isRunning s); simpl; [| auto].
    split; [assumption |]. intros i lap H.
    apply lookup_snoc_inv in H as [[_ H] | [_ ->]]; [now apply (Hl i) | assumption].
  - destruct (Host.pending (host s)) eqn:Ep; [| auto].
    pose proof (pending_running s Hw Ep) as Er. specialize (Hclk Er).
    simpl. split; [lia | assumption].
Qed.

Lemma run_nonneg (tr : list (Z * Action)) :
  forall c s, wellScheduled s -> inStep c s -> chronological c tr = true ->
              0 <= elapsedTime s ->
              (forall i lap, laps s !! i = Some lap -> 0 <= total lap) ->
              0 <= elapsedTime (run tr s)
              /\ (forall i lap, laps (run tr s) !! i = Some lap -> 0 <= total lap).
Proof.
  induction tr as [|[now a] tr IH]; intros c s Hw Hi Hc He Hl; [auto |].
  simpl in Hc. apply andb_prop in Hc as [Hle Hc]. apply Z.leb_le in Hle.
  destruct (nonneg_step c now a s Hw Hi Hle He Hl) as [He' Hl'].
  apply (IH now).
  - now apply wellScheduled_step.
  - now apply (inStep_step c).
  - exact Hc.
  - exact He'.
  - exact Hl'.
Qed.

Lemma elapsed_step (c now : Z) (a : Action) (s : State) :
  wellScheduled s -> inStep c s -> c <= now -> a <> Reset ->
  elapsedTime s <= elapsedTime (step now a s).
Proof.
  intros Hw (_ & _ & Hclk) Hc Ha. destruct a; simpl; try contradiction.
  - unfold start. destruct (isRunning s); simpl; lia.
  - unfold pause. destruct (isRunning s); simpl; lia.
  - unfold recordLap. destruct (isRunning s); simpl; lia.
  - destruct (Host.pending (host s)) eqn:Ep; [| lia].
    pose proof (pending_running s Hw Ep) as Er. specialize (Hclk Er). simpl. lia.
Qed.

(** ** The properties *)

(** X3: in every reachable state of the stopwatch the page is up to date:
    the display holds the formatted elapsed time, the start, pause, lap and
    reset buttons are disabled exactly as [updateButtons] would set them
    now, and the lap counter and the lap rows (newest first) are those of
    the current lap list. *)
Theorem stopwatch_page_up_to_date (s : State) :
  reachable s -> dom s = rendered s.
Proof.
  induction 1 as [d h | now a s Hr IH]; [reflexivity |].
  apply rendered_step; [now apply reachable_oneInterval | exact IH].
Qed.

Lemma stopwatch_page_up_to_date_witness :
  let s := run [(0, Start); (1500, Tick); (1500, RecordLap); (2000, Pause)]
             (init (boot blankDom 1)) in
  dom s = rendered s
  /\ display (dom s) = mkTimeParts "00" "00" "01" "50"
  /\ lapCount (dom s) = "1 lap"%string.
Proof.
  intros s. split; [| split; reflexivity].
  apply stopwatch_page_up_to_date. apply reachable_run.
  now exists blankDom, 1%nat, [(0, Start); (1500, Tick); (1500, RecordLap); (2000, Pause)].
Defined.

(** X4: in every reachable state the stopwatch holds exactly one live
    interval, the one stored in [intervalId], while it is running, and none
    (with [intervalId] null) while it is not: no event order schedules a
    second callback or leaves one behind. *)
Theorem stopwatch_one_interval (s : State) :
  reachable s ->
  (isRunning s = true -> exists i, intervalId s = Some i /\ Host.live (host s) = [i])
  /\ (isRunning s = false -> intervalId s = None /\ Host.live (host s) = []).
Proof. apply reachable_oneInterval. Qed.

Lemma stopwatch_one_interval_witness :
  let s := run [(0, Start); (5, Start); (9, Pause); (20, Start); (30, Start)]
             (init (boot blankDom 1)) in
  isRunning s = true /\ exists i, intervalId s = Some i /\ Host.live (host s) = [i].
Proof.
  intros s. split; [reflexivity |].
  apply (stopwatch_one_interval s); [| reflexivity].
  apply reachable_run.
  now exists blankDom, 1%nat, [(0, Start); (5, Start); (9, Pause); (20, Start); (30, Start)].
Defined.

(** X5: in every reachable state in which the stopwatch is not running
    (idle, paused or reset), no callback runs any more: whatever the clock
    reads afterwards, the state, elapsed time included, stays as it is. *)
Theorem stopwatch_frozen_when_stopped (s : State) (readings : list Z) :
  reachable s -> isRunning s = false -> ticks readings s = s.
Proof.
  intros Hr Hidle. destruct (reachable_oneInterval s Hr) as [_ Hn].
  destruct (Hn Hidle) as [_ Hlive].
  induction readings as [|now readings IH]; [reflexivity |].
  unfold ticks in *. simpl. unfold Host.pending. rewrite Hlive. exact IH.
Qed.

Lemma stopwatch_frozen_when_stopped_witness :
  let s := run [(0, Start); (700, Tick); (800, Pause)] (init (boot blankDom 1)) in
  isRunning s = false
  /\ elapsedTime (ticks [900; 1000; 5000] s) = 700.
Proof.
  intros s. split; [reflexivity |].
  rewrite (stopwatch_frozen_when_stopped s [900; 1000; 5000]); [reflexivity | | reflexivity].
  apply reachable_run. now exists blankDom, 1%nat, [(0, Start); (700, Tick); (800, Pause)].
Defined.

(** X6: in every reachable state the laps are numbered 1, 2, 3, ... in the
    order of recording: the lap at position [i] (from 0) has number
    [i + 1]. *)
Theorem lap_numbers_sequential (s : State) (i : nat) (lap : Lap) :
  reachable s -> laps s !! i = Some lap -> number lap = Z.of_nat i + 1.
Proof.
  intros Hr. revert i lap. induction Hr as [d h | now a s _ IH].
  - intros i lap H. simpl in H. rewrite lookup_nil in H. discriminate.
  - now apply numbers_step.
Qed.

Lemma lap_numbers_sequential_witness :
  let s := run [(0, Start); (10, Tick); (10, RecordLap); (20, RecordLap); (30, Tick);
                (30, RecordLap)] (init (boot blankDom 1)) in
  laps s !! 2%nat = Some (mkLap 3 30 20) /\ number (mkLap 3 30 20) = 3.
Proof.
  intros s. split; [reflexivity |].
  apply (lap_numbers_sequential s 2 (mkLap 3 30 20)); [| reflexivity].
  apply reachable_run.
  now exists blankDom, 1%nat, [(0, Start); (10, Tick); (10, RecordLap); (20, RecordLap);
                               (30, Tick); (30, RecordLap)].
Defined.

(** X7: in every reachable state the differences of all recorded laps add
    up to the total of the last lap (to 0 when there is none). *)
Theorem lap_diffs_sum_to_last_total (s : State) :
  reachable s ->
  sumDiffs (laps s) = match last (laps s) with Some p => total p | None => 0 end.
Proof.
  intros Hr. rewrite <- prevTotal_last.
  apply sumDiffs_telescopes. now apply reachable_lapsDeltaOk.
Qed.

Lemma lap_diffs_sum_to_last_total_witness :
  let s := run [(0, Start); (1500, Tick); (1500, RecordLap); (4200, Tick);
                (4200, RecordLap)] (init (boot blankDom 1)) in
  sumDiffs (laps s) = 4200.
Proof.
  intros s. rewrite (lap_diffs_sum_to_last_total s); [reflexivity |].
  apply reachable_run.
  now exists blankDom, 1%nat, [(0, Start); (1500, Tick); (1500, RecordLap); (4200, Tick);
                               (4200, RecordLap)].
Defined.

(** X8: after every history whose clock readings never go backwards, the
    elapsed time is not negative, and every recorded lap has a non-negative
    difference and a total between 0 and the current elapsed time. *)
Theorem stopwatch_times_nonneg (d : Dom) (h : nat) (tr : list (Z * Action)) :
  clockMonotone tr = true ->
  let s := run tr (init (boot d h)) in
  0 <= elapsedTime s
  /\ (forall i lap, laps s !! i = Some lap ->
                    0 <= diff lap /\ 0 <= total lap <= elapsedTime s).
Proof.
  intros Hm s. subst s.
  assert (Hall : exists c,
             inStep c (run tr (init (boot d h)))
             /\ 0 <= elapsedTime (run tr (init (boot d h)))
             /\ (forall i lap, laps (run tr (init (boot d h))) !! i = Some lap ->
                               0 <= total lap)).
  { destruct tr as [|e tr].
    - exists 0. split; [apply inStep_init |]. split; [simpl; lia |].
      intros i lap H. simpl in H. rewrite lookup_nil in H. discriminate.
    - assert (Hc : chronological (fst e) (e :: tr) = true)
        by (simpl; rewrite Z.leb_refl; exact Hm).
      exists (lastReading (fst e) (e :: tr)). split.
      + apply run_inStep_last; [apply wellScheduled_init | apply inStep_init | exact Hc].
      + apply (run_nonneg (e :: tr) (fst e));
          [apply wellScheduled_init | apply inStep_init | exact Hc | simpl; lia |].
        intros i lap H. simpl in H. rewrite lookup_nil in H. discriminate. }
  destruct Hall as (c & (Hnd & Hlast & _) & He & Hl).
  pose proof (run_lapsDeltaOk tr (init (boot d h)) lapsDeltaOk_nil) as Hd.
  split; [exact He |]. intros i lap Hi.
  assert (Htop : total lap <= elapsedTime (run tr (init (boot d h)))).
  { destruct (last (laps (run tr (init (boot d h))))) as [p|] eqn:Ep.
    - transitivity (total p); [| now apply Hlast].
      pose proof (lookup_lt_Some _ _ _ Hi). rewrite last_lookup in Ep.
      apply (Hnd i (pred (length (laps (run tr (init (boot d h))))))); [lia | assumption | assumption].
    - apply last_None in Ep. rewrite Ep in Hi. rewrite lookup_nil in Hi. discriminate. }
  pose proof (Hl i lap Hi) as Hpos.
  split; [| lia].
  rewrite (Hd i lap Hi). destruct i as [|j]; simpl; [lia |].
  destruct (laps (run tr (init (boot d h))) !! j) as [p|] eqn:Ej; [| lia].
  pose proof (Hnd j (S j) p lap ltac:(lia) Ej Hi). lia.
Qed.

Lemma stopwatch_times_nonneg_witness :
  let tr := [(100, Start); (250, Tick); (250, RecordLap); (300, Pause); (900, Start);
             (1000, Tick); (1000, RecordLap)] in
  clockMonotone tr = true
  /\ 0 <= elapsedTime (run tr (init (boot blankDom 1))).
Proof.
  intros tr. split; [reflexivity |].
  apply (stopwatch_times_nonneg blankDom 1 tr). reflexivity.
Defined.

(** X9: along a history whose clock readings never go backwards, no event
    other than reset lowers the elapsed time. *)
Theorem stopwatch_elapsed_never_drops
  (d : Dom) (h : nat) (tr : list (Z * Action)) (now : Z) (a : Action) :
  clockMonotone (tr ++ [(now, a)]) = true -> a <> Reset ->
  elapsedTime (run tr (init (boot d h)))
  <= elapsedTime (run (tr ++ [(now, a)]) (init (boot d h))).
Proof.
  intros Hm Ha. rewrite run_snoc.
  destruct tr as [|e tr].
  - apply (elapsed_step now);
      [apply wellScheduled_init | apply inStep_init | lia | exact Ha].
  - change (clockMonotone ((e :: tr) ++ [(now, a)]))
      with (chronological (fst e) (tr ++ [(now, a)])) in Hm.
    rewrite chronological_snoc in Hm. apply andb_prop in Hm as [Hc Hle].
    apply Z.leb_le in Hle. simpl in Hle.
    assert (Hc' : chronological (fst e) (e :: tr) = true)
      by (simpl; rewrite Z.leb_refl; exact Hc).
    apply (elapsed_step (lastReading (fst e) (e :: tr))).
    + apply run_wellScheduled. apply wellScheduled_init.
    + apply run_inStep_last; [apply wellScheduled_init | apply inStep_init | exact Hc'].
    + exact Hle.
    + exact Ha.
Qed.

Lemma stopwatch_elapsed_never_drops_witness :
  let tr := [(0, Start); (400, Tick); (450, Pause); (900, Start)] in
  clockMonotone (tr ++ [(950, Tick)]) = true /\ Tick <> Reset
  /\ elapsedTime (run tr (init (boot blankDom 1)))
     <= elapsedTime (run (tr ++ [(950, Tick)]) (init (boot blankDom 1))).
Proof.
  intros tr. split; [reflexivity |]. split; [discriminate |].
  apply (stopwatch_elapsed_never_drops blankDom 1 tr 950 Tick);
    [reflexivity | discriminate].
Defined.

End StopwatchMore.

(** * Further properties of the timer *)
Section TimerMore.

Import Timer.

Ltac tm_open s :=
  destruct s as [r rem tot id e [disp tn b1 b2 b3 [vh dh] [vm dm] [vs ds] ov] [lv fr] snd].

Ltac tm_cbn :=
  cbn [isRunning remainingTime totalTime intervalId endTime dom host sounds
       set_isRunning set_remainingTime set_totalTime set_intervalId set_endTime
       set_dom set_host set_sounds set_overlay_hidden set_field field
       display tone startBtn_disabled pauseBtn_disabled resetBtn_disabled
       hoursInput minutesInput secondsInput overlay_hidden value disabled
       updateDisplay updateButtons updateDisplayFromInputs validateInput
       showComplete hideComplete pause complete onInterval start reset
       onInput onDismiss boot init step
       Host.setInterval Host.clearInterval Host.live Host.fresh Host.pending
       negb andb orb List.filter fst snd] in *.

Ltac tm_arith := unfold getInputTime in *; tm_cbn; lia.

Lemma pending_running_timer (s : State) :
  consistent s -> Host.pending (host s) = true -> isRunning s = true.
Proof.
  intros (Hl & Hn & _) Hp. destruct (isRunning s); [reflexivity |].
  unfold Host.pending in Hp. rewrite Hl, (Hn eq_refl) in Hp. discriminate.
Qed.

Lemma idle_not_pending (s : State) :
  consistent s -> isRunning s = false -> Host.pending (host s) = false.
Proof.
  intros (Hl & Hn & _) Hr. unfold Host.pending. now rewrite Hl, (Hn Hr).
Qed.

(** A declined [start] returns the state it was given. *)
Lemma start_declined (now : Z) (s : State) :
  consistent s -> isRunning s = false -> remainingTime s = 0 ->
  getInputTime (dom s) <= 0 -> start now s = s.
Proof.
  tm_open s. unfold consistent. tm_cbn.
  intros (_ & _ & _ & _ & _ & _ & _ & Hzero) -> -> Hz.
  destruct (Hzero Hz) as (_ & _ & ->).
  unfold start. tm_cbn. rewrite Z.eqb_refl. tm_cbn.
  match goal with |- context [?g <=? 0] => destruct (Z.leb_spec g 0) as [Hle|Hgt] end;
    [| lia].
  unfold set_totalTime, set_remainingTime. tm_cbn. f_equal; tm_arith.
Qed.

Lemma buttonsReflect_init (d : Dom) (h : nat) : buttonsReflect (init (boot d h)).
Proof.
  destruct d as [disp tn b1 b2 b3 [vh dh] [vm dm] [vs ds] ov].
  unfold buttonsReflect. tm_cbn. repeat split.
Qed.

Lemma buttonsReflect_step (now : Z) (a : Action) (s : State) :
  consistent s -> buttonsReflect s -> buttonsReflect (step now a s).
Proof.
  intros Hc Hb. destruct a.
  - cbn [step]. destruct (isRunning s) eqn:Er.
    + unfold start. now rewrite Er.
    + destruct (Z.eqb_spec (remainingTime s) 0) as [Hz|Hnz].
      * destruct (Z.leb_spec (getInputTime (dom s)) 0) as [Hle|Hgt].
        { now rewrite start_declined. }
        revert Hc Hb Er Hz Hgt. tm_open s. unfold buttonsReflect, consistent, start.
        tm_cbn. intros _ _ -> -> Hgt. tm_cbn. rewrite Z.eqb_refl. tm_cbn.
        match goal with |- context [?g <=? 0] => destruct (Z.leb_spec g 0) end;
          [tm_arith |].
        tm_cbn. repeat split.
      * revert Hc Hb Er Hnz. tm_open s. unfold buttonsReflect, consistent, start.
        tm_cbn. intros (_ & _ & _ & _ & _ & _ & Hrem & _) Hb -> Hnz. tm_cbn.
        destruct (Z.eqb_spec rem 0); [contradiction |]. tm_cbn.
        destruct (Z.leb_spec rem 0); [lia |]. tm_cbn. repeat split.
  - cbn [step]. revert Hb. tm_open s. unfold buttonsReflect. tm_cbn.
    destruct r; tm_cbn; [repeat split | auto].
  - cbn [step]. unfold reset. generalize (pause s) as p. intros p. tm_open p.
    unfold buttonsReflect. tm_cbn. repeat split.
  - cbn [step]. unfold onDismiss, reset. generalize (pause (hideComplete s)) as p.
    intros p. tm_open p. unfold buttonsReflect. tm_cbn. repeat split.
  - revert Hc Hb. tm_open s. unfold buttonsReflect, consistent. tm_cbn.
    intros (_ & _ & _ & Hh & Hm & Hsd & _) Hb. subst dh dm ds.
    destruct f; tm_cbn; destruct r; tm_cbn; try exact Hb; repeat split.
  - cbn [step]. destruct (Host.pending (host s)) eqn:Ep; [| exact Hb].
    pose proof (pending_running_timer s Hc Ep) as Er.
    revert Hb Er. clear Hc Ep. tm_open s. unfold buttonsReflect, onInterval. tm_cbn.
    intros (Hb1 & Hb2 & Hb3) ->. unfold getInputTime in *. tm_cbn. subst b1 b2 b3.
    destruct (Z.leb_spec (Z.max 0 (e - now)) 0); tm_cbn; repeat split.
Qed.

Lemma paced_step (c now : Z) (a : Action) (s : State) :
  consistent s -> paced c s -> c <= now -> paced now (step now a s).
Proof.
  intros Hc Hp Hle. destruct a.
  - cbn [step]. revert Hc Hp. tm_open s. unfold paced, consistent, start. tm_cbn.
    intros _ (Hrem & Hend). destruct r; tm_cbn.
    + split; [lia |]. intros _. specialize (Hend eq_refl). lia.
    + destruct (Z.eqb_spec rem 0) as [-> | Hnz]; tm_cbn.
      * match goal with |- context [?g <=? 0] => destruct (Z.leb_spec g 0) end; tm_cbn.
        { split; [tm_arith | discriminate]. }
        split; [tm_arith | intros _; lia].
      * destruct (Z.leb_spec rem 0); tm_cbn; [split; [lia | discriminate] |].
        split; [lia | intros _; lia].
  - cbn [step]. revert Hp. tm_open s. unfold paced. tm_cbn.
    intros (Hrem & Hend). destruct r; tm_cbn; split; try lia; discriminate.
  - cbn [step]. unfold reset, pause. clear Hc Hp. tm_open s. unfold paced. tm_cbn.
    destruct r; tm_cbn; (split; [tm_arith | discriminate]).
  - cbn [step]. unfold onDismiss, reset, pause. clear Hc Hp. tm_open s.
    unfold paced. tm_cbn.
    destruct r; tm_cbn; (split; [tm_arith | discriminate]).
  - revert Hc Hp. tm_open s. unfold paced, consistent. tm_cbn.
    intros (_ & _ & _ & Hh & Hm & Hsd & _) (Hrem & Hend). subst dh dm ds.
    destruct f; tm_cbn; destruct r; tm_cbn;
      try (split; [lia | intros _; specialize (Hend eq_refl); lia]);
      (split; [tm_arith | discriminate]).
  - cbn [step]. destruct (Host.pending (host s)) eqn:Ep.
    + pose proof (pending_running_timer s Hc Ep) as Er.
      revert Hp Er. clear Hc Ep. tm_open s. unfold paced, onInterval. tm_cbn.
      intros (Hrem & Hend) ->. specialize (Hend eq_refl).
      destruct (Z.leb_spec (Z.max 0 (e - now)) 0); tm_cbn.
      * split; [lia | discriminate].
      * split; [lia | intros _; lia].
    + destruct Hp as (Hrem & Hend). split; [lia |].
      intros Er. specialize (Hend Er). lia.
Qed.

Lemma run_consistent (tr : list (Z * Action)) :
  forall s, consistent s -> consistent (run tr s).
Proof.
  induction tr as [|[now a] tr IH]; intros s Hs; [exact Hs |].
  apply IH. now apply consistent_step.
Qed.

Lemma run_paced (tr : list (Z * Action)) :
  forall c s, consistent s -> paced c s -> chronological c tr = true ->
              exists c', paced c' (run tr s).
Proof.
  induction tr as [|[now a] tr IH]; intros c s Hc Hp Hm; [now exists c |].
  simpl in Hm. apply andb_prop in Hm as [Hle Hm]. apply Z.leb_le in Hle.
  apply (IH now).
  - now apply consistent_step.
  - now apply (paced_step c).
  - exact Hm.
Qed.

Lemma paced_init (d : Dom) (h : nat) (c : Z) : paced c (init (boot d h)).
Proof.
  destruct d as [disp tn b1 b2 b3 [vh dh] [vm dm] [vs ds] ov].
  unfold paced. tm_cbn. split; [tm_arith | discriminate].
Qed.

Lemma reachable_run_timer (s : State) :
  reachable s <-> exists d h tr, s = run tr (init (boot d h)).
Proof.
  split.
  - induction 1 as [d h | now a s _ (d & h & tr & ->)].
    + now exists d, h, [].
    + exists d, h, (tr ++ [(now, a)]). unfold run. now rewrite fold_left_app.
  - intros (d & h & tr & ->). induction tr as [|[now a] tr IH] using rev_ind.
    + apply reachable_init.
    + unfold run. rewrite fold_left_app. now apply reachable_step.
Qed.

(** ** The properties *)

(** X10: in every reachable state of the timer the three buttons are
    disabled exactly as [updateButtons] would set them now: start when
    running or when neither the remaining time nor the fields hold any
    time, pause when not running, reset when not running with remaining,
    total and configured duration all equal. *)
Theorem timer_buttons_up_to_date (s : State) :
  reachable s -> buttonsReflect s.
Proof.
  induction 1 as [d h | now a s Hr IH].
  - apply buttonsReflect_init.
  - apply buttonsReflect_step; [now apply reachable_consistent | exact IH].
Qed.

Lemma timer_buttons_up_to_date_witness :
  let s := run [(0, Start); (100, Tick); (150, Pause)] (init (boot (pageWith 0 0 5) 1)) in
  buttonsReflect s /\ startBtn_disabled (dom s) = false
  /\ pauseBtn_disabled (dom s) = true /\ resetBtn_disabled (dom s) = false.
Proof.
  intros s. split; [| repeat split].
  apply timer_buttons_up_to_date. apply reachable_run_timer.
  now exists (pageWith 0 0 5), 1%nat, [(0, Start); (100, Tick); (150, Pause)].
Defined.

(** X11: in every reachable state the start button tells what [start] will
    do: when it is disabled, [start] returns the state unchanged; when it is
    enabled, the timer is not running and [start] sets it running. *)
Theorem timer_start_button_tells (now : Z) (s : State) :
  reachable s ->
  (startBtn_disabled (dom s) = true -> start now s = s)
  /\ (startBtn_disabled (dom s) = false ->
      isRunning s = false /\ isRunning (start now s) = true).
Proof.
  intros Hr. pose proof (reachable_consistent s Hr) as Hc.
  assert (Hb : buttonsReflect s).
  { clear Hc. induction Hr as [d h | n a s Hr IH].
    - apply buttonsReflect_init.
    - apply buttonsReflect_step; [now apply reachable_consistent | exact IH]. }
  destruct Hb as (Hb & _).
  pose proof Hc as (_ & _ & _ & _ & _ & _ & Hrem & _).
  pose proof (getInputTime_nonneg (dom s)) as HD.
  split; intros Hd; rewrite Hd in Hb.
  - destruct (isRunning s) eqn:Er; [unfold start; now rewrite Er |].
    simpl in Hb. symmetry in Hb. apply negb_true_iff, orb_false_iff in Hb as [H1 H2].
    apply Z.ltb_ge in H1, H2. apply start_declined; [assumption | assumption | lia | lia].
  - symmetry in Hb. apply orb_false_iff in Hb as [Er Hb]. split; [exact Er |].
    apply negb_false_iff in Hb.
    assert (HR : 0 < runLength s).
    { unfold runLength. destruct (Z.eqb_spec (remainingTime s) 0) as [Hz|Hnz]; [| lia].
      rewrite Hz in Hb. simpl in Hb. now apply Z.ltb_lt in Hb. }
    now destruct (start_runs now s Er HR) as (H & _).
Qed.

Lemma timer_start_button_tells_witness :
  let idle := init (boot (pageWith 0 0 0) 1) in
  let armed := init (boot (pageWith 0 2 0) 1) in
  (startBtn_disabled (dom idle) = true /\ start 50 idle = idle)
  /\ (startBtn_disabled (dom armed) = false /\ isRunning (start 50 armed) = true).
Proof.
  intros idle armed. split; (split; [reflexivity |]).
  - apply (proj1 (timer_start_button_tells 50 idle (reachable_init _ _))). reflexivity.
  - apply (proj2 (timer_start_button_tells 50 armed (reachable_init _ _))). reflexivity.
Defined.

(** X12: in every reachable state, a running timer holds exactly one live
    interval (the one in [intervalId]), its three fields are disabled and
    the configured duration is positive; a timer that is not running holds
    no interval and its fields are enabled. *)
Theorem timer_running_discipline (s : State) :
  reachable s ->
  (isRunning s = true ->
   (exists i, intervalId s = Some i /\ Host.live (host s) = [i])
   /\ disabled (hoursInput (dom s)) = true
   /\ disabled (minutesInput (dom s)) = true
   /\ disabled (secondsInput (dom s)) = true
   /\ 0 < getInputTime (dom s))
  /\ (isRunning s = false ->
      intervalId s = None /\ Host.live (host s) = []
      /\ disabled (hoursInput (dom s)) = false
      /\ disabled (minutesInput (dom s)) = false
      /\ disabled (secondsInput (dom s)) = false).
Proof.
  intros Hr. destruct (reachable_consistent s Hr)
    as (Hl & Hn & Hsome & Hh & Hm & Hs & _ & Hz).
  split; intros Er.
  - destruct (Hsome Er) as [i Hi]. rewrite Hi in Hl.
    split; [now exists i |]. rewrite Hh, Hm, Hs. repeat split; try assumption.
    destruct (Z.lt_ge_cases 0 (getInputTime (dom s))) as [|Hle]; [assumption |].
    destruct (Hz Hle) as (Hf & _). congruence.
  - rewrite (Hn Er) in Hl. rewrite Hh, Hm, Hs. auto using Hn.
Qed.

Lemma timer_running_discipline_witness :
  let s := run [(0, Start); (10, Start); (100, Tick)] (init (boot (pageWith 0 0 5) 1)) in
  isRunning s = true /\ exists i, intervalId s = Some i /\ Host.live (host s) = [i].
Proof.
  intros s. split; [reflexivity |].
  apply (proj1 (timer_running_discipline s
                  (proj2 (reachable_run_timer s)
                     (ex_intro _ (pageWith 0 0 5) (ex_intro _ 1%nat
                        (ex_intro _ [(0, Start); (10, Start); (100, Tick)] eq_refl)))))).
  reflexivity.
Defined.

(** X13: in every reachable state in which the timer is not running (idle,
    paused or complete), no callback runs any more: whatever the clock reads
    afterwards, the state, remaining time included, stays as it is, and no
    further completion is signalled. *)
Theorem timer_frozen_when_stopped (s : State) (readings : list Z) :
  reachable s -> isRunning s = false -> ticks readings s = s.
Proof.
  intros Hr Hidle.
  pose proof (idle_not_pending s (reachable_consistent s Hr) Hidle) as Hp.
  induction readings as [|now readings IH]; [reflexivity |].
  unfold ticks in *. simpl. rewrite Hp. exact IH.
Qed.

Lemma timer_frozen_when_stopped_witness :
  let s := run [(0, Start); (2000, Tick); (2100, Pause)] (init (boot (pageWith 0 0 5) 1)) in
  isRunning s = false /\ remainingTime (ticks [3000; 9000] s) = 3000.
Proof.
  intros s. split; [reflexivity |].
  rewrite (timer_frozen_when_stopped s [3000; 9000]); [reflexivity | | reflexivity].
  apply reachable_run_timer.
  now exists (pageWith 0 0 5), 1%nat, [(0, Start); (2000, Tick); (2100, Pause)].
Defined.

(** X14: starting a timer that is not running and has time remaining
    resumes from that remaining time, whatever the fields hold: the end
    instant is [now + remaining], the total is kept, and the callback run at
    reading [now'] leaves [max 0 (remaining - (now' - now))]. *)
Theorem timer_start_resumes (now now' : Z) (s : State) :
  isRunning s = false -> 0 < remainingTime s ->
  let s' := start now s in
  isRunning s' = true
  /\ endTime s' = now + remainingTime s
  /\ remainingTime s' = remainingTime s
  /\ totalTime s' = totalTime s
  /\ remainingTime (step now' Tick s') = Z.max 0 (remainingTime s - (now' - now)).
Proof.
  tm_open s. tm_cbn. intros -> Hpos. unfold start. tm_cbn.
  destruct (Z.eqb_spec rem 0); [lia |]. tm_cbn.
  destruct (Z.leb_spec rem 0); [lia |]. tm_cbn.
  repeat split. unfold onInterval. tm_cbn.
  destruct (Z.leb_spec (Z.max 0 (now + rem - now')) 0); tm_cbn; lia.
Qed.

Lemma timer_start_resumes_witness :
  let s := run [(0, Start); (2000, Tick); (2100, Pause)] (init (boot (pageWith 0 0 5) 1)) in
  isRunning s = false /\ 0 < remainingTime s
  /\ remainingTime (step 60500 Tick (start 60000 s)) = 2500.
Proof.
  intros s. split; [reflexivity |]. split; [reflexivity |].
  destruct (timer_start_resumes 60000 60500 s eq_refl eq_refl) as (_ & _ & _ & _ & H).
  rewrite H. reflexivity.
Defined.

(** X15: whatever the state, [reset] leaves the timer not running with
    remaining and total both equal to the duration now configured in the
    fields (which it does not alter) and the completion overlay hidden; and
    the dismiss button does exactly what reset does. *)
Theorem timer_reset_reloads (s : State) :
  isRunning (reset s) = false
  /\ remainingTime (reset s) = getInputTime (dom s)
  /\ totalTime (reset s) = getInputTime (dom s)
  /\ getInputTime (dom (reset s)) = getInputTime (dom s)
  /\ overlay_hidden (dom (reset s)) = true
  /\ onDismiss s = reset s.
Proof.
  unfold onDismiss, reset, pause. tm_open s. tm_cbn.
  destruct r; tm_cbn; repeat split.
Qed.

(** X16: when the user types into an enabled field, the field afterwards
    holds a whole number between 0 and its maximum (99 for hours, 59 for
    minutes and seconds): a number already in that range is kept, one
    outside is clamped to the nearer bound, and unparsable text becomes 0. *)
Theorem timer_input_clamped (now : Z) (f : Field) (v : option Z) (s : State) :
  disabled (field f (dom s)) = false ->
  value (field f (dom (step now (Input f v) s)))
  = Some (Z.max 0 (Z.min (fieldMax f) (orZero v)))
  /\ 0 <= Z.max 0 (Z.min (fieldMax f) (orZero v)) <= fieldMax f
  /\ (forall n, v = Some n -> 0 <= n <= fieldMax f ->
                 Z.max 0 (Z.min (fieldMax f) (orZero v)) = n).
Proof.
  intros Hd. split; [| split].
  - revert Hd. tm_open s. tm_cbn.
    destruct f; tm_cbn; intros ->; destruct r; reflexivity.
  - destruct f; simpl; lia.
  - intros n -> Hn. simpl. lia.
Qed.

Lemma timer_input_clamped_witness :
  let s := init (boot (pageWith 0 0 5) 1) in
  disabled (field Minutes (dom s)) = false
  /\ value (field Minutes (dom (step 0 (Input Minutes (Some 75)) s))) = Some 59.
Proof.
  intros s. split; [reflexivity |].
  exact (proj1 (timer_input_clamped 0 Minutes (Some 75) s eq_refl)).
Defined.



(** X18: after every history of timer events whose clock readings never go
    backwards, the remaining time lies between 0 and the total. *)
Theorem timer_remaining_within_total (d : Dom) (h : nat) (tr : list (Z * Action)) :
  clockMonotone tr = true ->
  0 <= remainingTime (run tr (init (boot d h)))
       <= totalTime (run tr (init (boot d h))).
Proof.
  intros Hm. destruct tr as [|e tr].
  - now destruct (paced_init d h 0) as [H _].
  - destruct (run_paced (e :: tr) (fst e) (init (boot d h))) as (c' & H & _).
    + apply consistent_init.
    + apply paced_init.
    + simpl. rewrite Z.leb_refl. exact Hm.
    + exact H.
Qed.

Lemma timer_remaining_within_total_witness :
  let tr := [(0, Start); (1200, Tick); (1300, Pause); (9000, Start); (9500, Tick)] in
  clockMonotone tr = true
  /\ 0 <= remainingTime (run tr (init (boot (pageWith 0 0 5) 1)))
          <= totalTime (run tr (init (boot (pageWith 0 0 5) 1))).
Proof.
  intros tr. split; [reflexivity |].
  apply (timer_remaining_within_total (pageWith 0 0 5) 1 tr). reflexivity.
Defined.



(** A timer restarted after completion shows zero until the first callback. *)
Example timer_display_lags_after_restart :
  let s := run [(0, Start); (5000, Tick); (6000, Start)]
             (init (boot (pageWith 0 0 5) 1)) in
  isRunning s = true /\ remainingTime s = 5000
  /\ display (dom s) = ("00", "00", "00")%string.
Proof. repeat split. Qed.

(** X22: in every reachable state the display and its colour class are
    those [updateDisplay] writes either for the current remaining time or
    for zero: it never shows any other time. *)
Theorem timer_display_current_or_zero (s : State) :
  reachable s ->
  (display (dom s), tone (dom s)) = shown (remainingTime s)
  \/ (display (dom s), tone (dom s)) = shown 0.
Proof.
  induction 1 as [d h | now a s _ IH].
  - left. destruct d as [disp tn b1 b2 b3 [vh dh] [vm dm] [vs ds] ov]. reflexivity.
  - destruct a.
    + cbn [step]. revert IH. tm_open s. unfold start. tm_cbn.
      destruct r; tm_cbn; [auto |].
      destruct (Z.eqb_spec rem 0) as [-> | Hnz]; tm_cbn.
      * intros IH. right.
        match goal with |- context [?g <=? 0] => destruct (g <=? 0) end; tm_cbn;
          destruct IH; assumption.
      * destruct (rem <=? 0); tm_cbn; auto.
    + cbn [step]. revert IH. tm_open s. tm_cbn. destruct r; tm_cbn; auto.
    + left. cbn [step]. unfold reset, pause. clear IH. tm_open s. tm_cbn.
      destruct r; reflexivity.
    + left. cbn [step]. unfold onDismiss, reset, pause. clear IH. tm_open s. tm_cbn.
      destruct r; reflexivity.
    + revert IH. tm_open s. tm_cbn.
      destruct f; tm_cbn;
        match goal with |- context [if ?b then _ else _] => destruct b end;
        tm_cbn; auto; destruct r; tm_cbn; auto.
    + cbn [step]. destruct (Host.pending (host s)); [| exact IH].
      left. clear IH. tm_open s. unfold onInterval. tm_cbn.
      destruct (Z.leb_spec (Z.max 0 (e - now)) 0); tm_cbn; [| reflexivity].
      unfold pause. tm_cbn. destruct r; reflexivity.
Qed.

Lemma timer_display_current_or_zero_witness :
  let s := run [(0, Start); (2000, Tick)] (init (boot (pageWith 0 0 5) 1)) in
  display (dom s) = ("00", "00", "03")%string /\ tone (dom s) = Danger
  /\ ((display (dom s), tone (dom s)) = shown (remainingTime s)
      \/ (display (dom s), tone (dom s)) = shown 0).
Proof.
  intros s. split; [reflexivity |]. split; [reflexivity |].
  apply timer_display_current_or_zero. apply reachable_run_timer.
  now exists (pageWith 0 0 5), 1%nat, [(0, Start); (2000, Tick)].
Defined.

End TimerMore.

(** * Repeating an operation *)

(** X20: a second [start] right after a first changes nothing, for the
    stopwatch and for the timer, in every state and whatever the clock
    reads at either call: a double click schedules no second callback and
    does not move the start or end instant. *)
Theorem start_twice (n1 n2 : Z) (s : Stopwatch.State) (t : Timer.State) :
  Stopwatch.start n2 (Stopwatch.start n1 s) = Stopwatch.start n1 s
  /\ Timer.start n2 (Timer.start n1 t) = Timer.start n1 t.
Proof.
  split.
  - unfold Stopwatch.start. destruct (Stopwatch.isRunning s) eqn:E; simpl.
    + now rewrite E.
    + reflexivity.
  - destruct t as [r rem tot id e d h snd].
    pose proof (getInputTime_nonneg d) as HD.
    unfold Timer.start. cbn [Timer.isRunning Timer.remainingTime Timer.dom].
    destruct r; [reflexivity |].
    destruct (Z.eqb_spec rem 0) as [-> | Hnz]; simpl.
    + set (G := Timer.getInputTime d) in *.
      destruct (Z.leb_spec G 0) as [Hle|Hgt]; simpl; [| reflexivity].
      fold G. assert (Hz : G = 0) by lia. rewrite Hz. reflexivity.
    + destruct (Z.leb_spec rem 0) as [Hle|Hgt]; simpl; [| reflexivity].
      destruct (Z.eqb_spec rem 0); [contradiction |]. simpl.
      destruct (Z.leb_spec rem 0); [reflexivity | lia].
Qed.

(** X21: a second [reset] right after a first changes nothing, for the
    stopwatch and for the timer, in every state. *)
Theorem reset_twice (s : Stopwatch.State) (t : Timer.State) :
  Stopwatch.reset (Stopwatch.reset s) = Stopwatch.reset s
  /\ Timer.reset (Timer.reset t) = Timer.reset t.
Proof.
  split.
  - unfold Stopwatch.reset, Stopwatch.pause.
    destruct (Stopwatch.isRunning s) eqn:E; simpl; [reflexivity | now rewrite E].
  - unfold Timer.reset, Timer.pause.
    destruct (Timer.isRunning t) eqn:E; simpl; [reflexivity | now rewrite E].
Qed.
